(** * chimestock: stock watcher with email notification

    A shallow embedding of [src/chimestock/chimestock.py]: the classes
    [Item] and [Store] become the modules [Item] and [Store]; a method
    that mutates [self] and talks to the outside world becomes a
    computation in the monad [Py], which threads the mutable state and
    keeps it when an exception is raised, as Python does. *)

From Stdlib Require Import String Ascii List ZArith Bool Lia Permutation.
From Stdlib Require Import DecimalString DecimalZ DecimalPos.
Import ListNotations.

Local Open Scope list_scope.
Local Open Scope string_scope.

(** ** Python values *)

(** The values a caller can hand to the constructor and the methods.
    A float is kept as its binary64 bit pattern. *)
Inductive PyVal : Type :=
| VNone
| VBool (b : bool)
| VInt (n : Z)
| VFloat (bits : Z)
| VStr (s : string).

Definition str_is_empty (s : string) : bool :=
  match s with
  | EmptyString => true
  | String _ _ => false
  end.

(** [bool(v)]: None, False, 0, +0.0, -0.0 and '' are false. *)
Definition truthy (v : PyVal) : bool :=
  match v with
  | VNone => false
  | VBool b => b
  | VInt n => negb (Z.eqb n 0)
  | VFloat bits => negb (Z.eqb (Z.land bits (Z.ones 63)) 0)
  | VStr s => negb (str_is_empty s)
  end.

Definition is_None (v : PyVal) : bool :=
  match v with
  | VNone => true
  | _ => false
  end.

(** [isinstance(v, int)]: bool is a subclass of int. *)
Definition isinstance_int (v : PyVal) : bool :=
  match v with
  | VBool _ | VInt _ => true
  | _ => false
  end.

Definition isinstance_float (v : PyVal) : bool :=
  match v with
  | VFloat _ => true
  | _ => false
  end.

Definition isinstance_str (v : PyVal) : bool :=
  match v with
  | VStr _ => true
  | _ => false
  end.

(** ** Strings *)

Definition nl : string := String (ascii_of_nat 10) EmptyString.

(** [sep.join(parts)] *)
Fixpoint join (sep : string) (parts : list string) : string :=
  match parts with
  | [] => ""
  | [p] => p
  | p :: rest => p ++ sep ++ join sep rest
  end.

(** [str(n)] for an int. *)
Definition str_of_int (n : Z) : string :=
  NilZero.string_of_int (Z.to_int n).

(** White space as [str.lstrip] and [str.rstrip] see it. A character
    of a [string] stands for the code point of its number, so the texts
    of the model are those of code points below 256; among these the
    white space is tab to carriage return, the four separators 28 to
    31, space, next line (133) and no-break space (160). *)
Definition isspace (c : ascii) : bool :=
  let n := nat_of_ascii c in
  (Nat.leb 9 n && Nat.leb n 13) || (Nat.leb 28 n && Nat.leb n 32)
  || Nat.eqb n 133 || Nat.eqb n 160.

Fixpoint lstrip (s : string) : string :=
  match s with
  | EmptyString => EmptyString
  | String c t => if isspace c then lstrip t else s
  end.

Fixpoint rstrip (s : string) : string :=
  match s with
  | EmptyString => EmptyString
  | String c t =>
      let t' := rstrip t in
      if isspace c && str_is_empty t' then EmptyString else String c t'
  end.

(** [bool(re.search(pat, text))] for a pattern without metacharacters:
    the pattern occurs somewhere in the text. *)
Fixpoint re_search (pat text : string) : bool :=
  prefix pat text ||
  match text with
  | EmptyString => false
  | String _ t => re_search pat t
  end.

(** ** Exceptions and the monad of methods *)

Inductive SmtpStage : Type :=
| Connect | Ehlo | StartTls | Login | SendMail | Quit.

Inductive PyExn : Type :=
| AssertionError (msg : string)
| ValueError (msg : string)
| TypeError
| EOFError
| OverflowError
| ClientError
| SMTPException (stage : SmtpStage).

Inductive Outcome (A : Type) : Type :=
| Ret (a : A)
| Raise (e : PyExn).

Arguments Ret {A} a.
Arguments Raise {A} e.

(** A method over mutable state [S]: the state is returned in both
    outcomes, since a raise does not undo the writes made before it. *)
Definition Py (S A : Type) : Type := S -> Outcome A * S.

Definition ret {S A} (a : A) : Py S A := fun s => (Ret a, s).

Definition raise {S A} (e : PyExn) : Py S A := fun s => (Raise e, s).

Definition bind {S A B} (m : Py S A) (k : A -> Py S B) : Py S B :=
  fun s =>
    match m s with
    | (Ret a, s') => k a s'
    | (Raise e, s') => (Raise e, s')
    end.

Definition get {S} : Py S S := fun s => (Ret s, s).

Definition modify {S} (f : S -> S) : Py S unit := fun s => (Ret tt, f s).

Declare Scope py_scope.
Delimit Scope py_scope with py.
Notation "x <- m ;; k" := (bind m (fun x => k))
  (at level 100, m at next level, right associativity) : py_scope.
Notation "m ;; k" := (bind m (fun _ => k))
  (at level 100, right associativity) : py_scope.
Local Open Scope py_scope.

(** [assert c, msg] *)
Definition py_assert {S} (c : bool) (msg : string) : Py S unit :=
  if c then ret tt else raise (AssertionError msg).

(** [try: m  except: handler]: a bare except catches everything. *)
Definition try_except {S A} (m : Py S A) (handler : Py S A) : Py S A :=
  fun s =>
    match m s with
    | (Ret a, s') => (Ret a, s')
    | (Raise _, s') => handler s'
    end.

(** [try: m  finally: cleanup]: the cleanup runs in both outcomes, and
    an exception of the cleanup replaces the pending one. *)
Definition try_finally {S A} (m : Py S A) (cleanup : Py S unit) : Py S A :=
  fun s =>
    match m s with
    | (r, s') =>
        match cleanup s' with
        | (Ret _, s'') => (r, s'')
        | (Raise e, s'') => (Raise e, s'')
        end
    end.

(** ** The outside world *)

(** What a GET yields: a decoded body, or an exception of the client
    (network error, timeout after 10 s, undecodable body). *)
Inductive Fetched : Type :=
| Body (text : string)
| FetchFails.

Record Mail : Type := mkMail {
  mail_from : string;
  mail_to : string;
  mail_body : string
}.

(** [web n url] is what the [n]-th request of the run yields when it
    goes to [url]; [smtp k stage] tells whether [stage] of the [k]-th
    SMTP session goes through; [float_nap bits] is the exception, if
    any, that the event loop raises when asked to sleep for 60 times
    the float of these bits (what it does with NaN depends on the
    interpreter). All three are fixed in advance; the counters and the
    streams move. [tty] is what is written to the terminal, or to
    stderr, rather than to stdout. *)
Record World : Type := mkWorld {
  web : nat -> string -> Fetched;
  requests : nat;
  smtp : nat -> SmtpStage -> bool;
  sessions : nat;
  outbox : list Mail;
  stdin : list string;
  stdout : list string;
  naps : nat;
  float_nap : Z -> option PyExn;
  tty : list string
}.

Definition with_requests (n : nat) (w : World) : World :=
  mkWorld (web w) n (smtp w) (sessions w) (outbox w) (stdin w) (stdout w) (naps w)
          (float_nap w) (tty w).

Definition with_sessions (n : nat) (w : World) : World :=
  mkWorld (web w) (requests w) (smtp w) n (outbox w) (stdin w) (stdout w) (naps w)
          (float_nap w) (tty w).

Definition with_outbox (o : list Mail) (w : World) : World :=
  mkWorld (web w) (requests w) (smtp w) (sessions w) o (stdin w) (stdout w) (naps w)
          (float_nap w) (tty w).

Definition with_stdin (i : list string) (w : World) : World :=
  mkWorld (web w) (requests w) (smtp w) (sessions w) (outbox w) i (stdout w) (naps w)
          (float_nap w) (tty w).

Definition with_stdout (o : list string) (w : World) : World :=
  mkWorld (web w) (requests w) (smtp w) (sessions w) (outbox w) (stdin w) o (naps w)
          (float_nap w) (tty w).

Definition with_naps (n : nat) (w : World) : World :=
  mkWorld (web w) (requests w) (smtp w) (sessions w) (outbox w) (stdin w) (stdout w) n
          (float_nap w) (tty w).

Definition with_tty (o : list string) (w : World) : World :=
  mkWorld (web w) (requests w) (smtp w) (sessions w) (outbox w) (stdin w) (stdout w) (naps w)
          (float_nap w) o.

(** [print(s)] *)
Definition print (s : string) : Py World unit :=
  modify (fun w => with_stdout (stdout w ++ [s])%list w).

(** [input(prompt)]: the prompt is written, a line is read; end of
    input raises EOFError. *)
Definition input (prompt : string) : Py World string :=
  fun w =>
    let w1 := with_stdout (stdout w ++ [prompt])%list w in
    match stdin w1 with
    | [] => (Raise EOFError, w1)
    | line :: rest => (Ret line, with_stdin rest w1)
    end.

(** [getpass.getpass(prompt)]: the prompt goes to the terminal (or to
    stderr), not to stdout; the line typed is taken from the same input
    as [input]; end of input raises EOFError. *)
Definition getpass (prompt : string) : Py World string :=
  fun w =>
    let w1 := with_tty (tty w ++ [prompt])%list w in
    match stdin w1 with
    | [] => (Raise EOFError, w1)
    | line :: rest => (Ret line, with_stdin rest w1)
    end.

(** [minutes * 60] for the intervals [Store.check] lets through: an int
    (a bool counts as 0 or 1), or 60 times a float, kept by the bits of
    the float. *)
Inductive Seconds : Type :=
| SecInt (n : Z)
| SecFloat60 (bits : Z).

Definition times60 (minutes : PyVal) : option Seconds :=
  match minutes with
  | VBool b => Some (SecInt (Z.b2z b * 60))
  | VInt n => Some (SecInt (n * 60))
  | VFloat bits => Some (SecFloat60 bits)
  | _ => None
  end.

(** The least int that does not convert to a float: half an ulp above
    the largest double, which rounds up to 2^1024. *)
Definition float_limit : Z := 2 ^ 1024 - 2 ^ 970.

(** [await asyncio.sleep(seconds)]. An int at or below 0 returns after
    one pass of the loop; a larger one is added to the clock, a float,
    which raises OverflowError from [float_limit] on. For a float the
    world says whether the loop raises. A sleep that returns counts as
    a nap; one that would last for ever is not told apart from it. *)
Definition sleep (seconds : Seconds) : Py World unit :=
  fun w =>
    match seconds with
    | SecInt n =>
        if (float_limit <=? n)%Z then (Raise OverflowError, w)
        else (Ret tt, with_naps (S (naps w)) w)
    | SecFloat60 bits =>
        match float_nap w bits with
        | Some e => (Raise e, w)
        | None => (Ret tt, with_naps (S (naps w)) w)
        end
    end.

(** One HTTP GET. *)
Definition http_get (url : string) : Py World string :=
  fun w =>
    let w' := with_requests (S (requests w)) w in
    match web w (requests w) url with
    | Body text => (Ret text, w')
    | FetchFails => (Raise ClientError, w')
    end.

(** [smtplib.SMTP(host, port)]: opens a session and returns its number;
    the number is used up even when the connection is refused. *)
Definition smtp_connect : Py World nat :=
  fun w =>
    let k := sessions w in
    let w' := with_sessions (S k) w in
    if smtp w k Connect then (Ret k, w') else (Raise (SMTPException Connect), w').

(** One later step of session [k]: raises when the world says so. *)
Definition smtp_step (k : nat) (stage : SmtpStage) : Py World unit :=
  fun w =>
    if smtp w k stage then (Ret tt, w)
    else (Raise (SMTPException stage), w).

(** [server.sendmail(sender, recipient, body)] on session [k]. *)
Definition smtp_sendmail (k : nat) (m : Mail) : Py World unit :=
  smtp_step k SendMail ;;
  modify (fun w => with_outbox (outbox w ++ [m])%list w).

(** Run a computation on the world inside a larger state. *)
Definition in_world {T A} (m : Py World A) : Py (T * World) A :=
  fun '(t, w) => let (r, w') := m w in (r, (t, w')).

(** Read and write the object half of the state. *)
Definition self {T} : Py (T * World) T := fun '(t, w) => (Ret t, (t, w)).

Definition set_self {T} (f : T -> T) : Py (T * World) unit :=
  fun '(t, w) => (Ret tt, (f t, w)).

(** ** class Item *)

Module Item.

Record t : Type := mk {
  url : string;
  stock : option bool;
  stockChanged : bool
}.

(** [self.stockString], set in [__init__] and never assigned again. *)
Definition stockString : string := "In stock".

(** [Item.__init__] *)
Definition init (u : string) : t := mk u None false.

Definition set_stock (v : option bool) (it : t) : t :=
  mk (url it) v (stockChanged it).

Definition set_stockChanged (v : bool) (it : t) : t :=
  mk (url it) (stock it) v.

(** [Item.__str__] *)
Definition str (it : t) : string :=
  let s := match stock it with
           | Some true => "in"
           | _ => "out of"
           end in
  "Item is " ++ s ++ " stock" ++ nl ++ url it ++ nl.

(** [Item.pull] *)
Definition pull : Py (t * World) string :=
  it <- self ;;
  in_world (http_get (url it)).

(** [stock != self.stock], a bool against a bool or None. *)
Definition ne_stock (new : bool) (old : option bool) : bool :=
  match old with
  | None => true
  | Some b => negb (Bool.eqb new b)
  end.

Definition is_not_None (old : option bool) : bool :=
  match old with
  | None => false
  | Some _ => true
  end.

(** [Item.update] *)
Definition update : Py (t * World) unit :=
  text <- pull ;;
  if str_is_empty text then raise (ValueError "Data missing from request")
  else
    let stock' := re_search stockString text in
    it <- self ;;
    set_self (set_stockChanged (ne_stock stock' (stock it) && is_not_None (stock it))) ;;
    set_self (set_stock (Some stock')).

End Item.

(** ** class Store *)

Module Store.

Record t : Type := mk {
  items : list Item.t;
  newInStock : Z;
  totalInStock : Z;
  debug : PyVal;
  server : PyVal;
  port : PyVal;
  sender : string;
  recipient : string;
  password : PyVal
}.

Definition with_items (v : list Item.t) (s : t) : t :=
  mk v (newInStock s) (totalInStock s) (debug s) (server s) (port s)
     (sender s) (recipient s) (password s).

Definition with_newInStock (v : Z) (s : t) : t :=
  mk (items s) v (totalInStock s) (debug s) (server s) (port s)
     (sender s) (recipient s) (password s).

Definition with_totalInStock (v : Z) (s : t) : t :=
  mk (items s) (newInStock s) v (debug s) (server s) (port s)
     (sender s) (recipient s) (password s).

Definition with_debug (v : PyVal) (s : t) : t :=
  mk (items s) (newInStock s) (totalInStock s) v (server s) (port s)
     (sender s) (recipient s) (password s).

Definition with_server (v : PyVal) (s : t) : t :=
  mk (items s) (newInStock s) (totalInStock s) (debug s) v (port s)
     (sender s) (recipient s) (password s).

Definition with_port (v : PyVal) (s : t) : t :=
  mk (items s) (newInStock s) (totalInStock s) (debug s) (server s) v
     (sender s) (recipient s) (password s).

Definition with_sender (v : string) (s : t) : t :=
  mk (items s) (newInStock s) (totalInStock s) (debug s) (server s) (port s)
     v (recipient s) (password s).

Definition with_recipient (v : string) (s : t) : t :=
  mk (items s) (newInStock s) (totalInStock s) (debug s) (server s) (port s)
     (sender s) v (password s).

Definition with_password (v : PyVal) (s : t) : t :=
  mk (items s) (newInStock s) (totalInStock s) (debug s) (server s) (port s)
     (sender s) (recipient s) v.

(** The [port] setter. *)
Definition set_port (val : PyVal) : Py (t * World) unit :=
  py_assert (isinstance_int val) "Must be int" ;;
  set_self (with_port val).

(** The [sender] setter. The second assertion is the match: only a str
    gets stored. *)
Definition set_sender (val : PyVal) : Py (t * World) unit :=
  py_assert (negb (is_None val)) "Sender address cannot be empty" ;;
  match val with
  | VStr s => set_self (with_sender s)
  | _ => raise (AssertionError "Must be str")
  end.

(** The object before [__init__] has assigned anything. Every attribute
    is written by [init_body] before it is read. *)
Definition blank : t := mk [] 0 0 VNone VNone VNone "" "" VNone.

Definition init_body (server0 port0 sender0 password0 recipient0 debug0 : PyVal)
  : Py (t * World) unit :=
  set_self (with_items []) ;;
  set_self (with_newInStock 0) ;;
  set_self (with_totalInStock 0) ;;
  set_self (with_debug debug0) ;;
  set_self (with_server (if is_None server0 then VStr "smtp.gmail.com" else server0)) ;;
  set_port port0 ;;
  (if negb (truthy sender0) then
     line <- in_world (input "Enter sender email address: ") ;;
     set_sender (VStr (rstrip (lstrip line)))
   else
     set_sender sender0) ;;
  (if is_None recipient0 then
     line <- in_world (input "Enter recipient email address (Leave blank for loopback): ") ;;
     let prompted := rstrip (lstrip line) in
     if str_is_empty prompted then
       s <- self ;; set_self (with_recipient (sender s))
     else
       set_self (with_recipient prompted)
   else
     s <- self ;; set_self (with_recipient (sender s))) ;;
  s <- self ;;
  if truthy (server s) && negb (str_is_empty (sender s)) && negb (truthy password0) then
    p <- in_world (getpass "Enter email account password: ") ;;
    set_self (with_password (VStr p))
  else
    set_self (with_password password0).

(** [Store.__init__]: no object comes out of a constructor that raises. *)
Definition init (server0 port0 sender0 password0 recipient0 debug0 : PyVal)
  : Py World t :=
  fun w =>
    match init_body server0 port0 sender0 password0 recipient0 debug0 (blank, w) with
    | (Ret _, (s, w')) => (Ret s, w')
    | (Raise e, (_, w')) => (Raise e, w')
    end.

(** [Store(...)] with the defaults of the signature for what is left out. *)
Definition default_port : PyVal := VInt 587.

(** Run a method of a fresh local object; the object is handed back when
    the method returns and is lost when it raises. *)
Definition on_new {T U A} (obj : U) (m : Py (U * World) A) : Py (T * World) U :=
  fun '(s, w) =>
    match m (obj, w) with
    | (Ret _, (obj', w')) => (Ret obj', (s, w'))
    | (Raise e, (_, w')) => (Raise e, (s, w'))
    end.

(** [url not in (item.url for item in self.items)] *)
Definition tracked (u : string) (s : t) : bool :=
  existsb (String.eqb u) (map Item.url (items s)).

(** [Store.add]. The set of items is kept as a list, in one of the
    orders the set may be iterated in; [set.add] of a new object puts
    it somewhere in that order, here at the end. What is stated about
    the items does not depend on the order. *)
Fixpoint add (urls : list PyVal) : Py (t * World) unit :=
  match urls with
  | [] => ret tt
  | u :: rest =>
      py_assert (isinstance_str u) "URL must be a string" ;;
      match u with
      | VStr url =>
          s <- self ;;
          (if negb (tracked url s) then
             new <- on_new (Item.init url) Item.update ;;
             set_self (fun s => with_items (items s ++ [new])%list s)
           else ret tt) ;;
          add rest
      | _ => add rest
      end
  end.

Fixpoint assert_urls (urls : list PyVal) : Py (t * World) unit :=
  match urls with
  | [] => ret tt
  | u :: rest =>
      py_assert (isinstance_str u) "URL must be a string" ;;
      assert_urls rest
  end.

(** [item.url in urls] *)
Definition url_in (u : string) (urls : list PyVal) : bool :=
  existsb (fun v => match v with
                    | VStr s => String.eqb u s
                    | _ => false
                    end) urls.

(** [Store.remove] *)
Definition remove (urls : list PyVal) : Py (t * World) unit :=
  assert_urls urls ;;
  set_self (fun s =>
    with_items (filter (fun it => negb (url_in (Item.url it) urls)) (items s)) s).

(** [Store.email_message] *)
Definition email_message : Py (t * World) string :=
  s <- self ;;
  let new := if truthy (debug s) then items s
             else filter Item.stockChanged (items s) in
  let message := join nl (map Item.str new) in
  in_world (print message) ;;
  ret message.

(** [Store.email_subject] *)
Definition email_subject (s : t) : string :=
  "(" ++ str_of_int (newInStock s) ++ " new, "
      ++ str_of_int (totalInStock s) ++ " total) items in stock".

(** [Store.send_email]. The [else] branch of the [try] only assigns
    [sent = True], so it is folded into the guarded block. *)
Definition send_email : Py (t * World) bool :=
  srv <- in_world smtp_connect ;;
  in_world (smtp_step srv Ehlo) ;;
  in_world (smtp_step srv StartTls) ;;
  in_world (smtp_step srv Login) ;;
  s <- self ;;
  message <- email_message ;;
  let body := join nl [ "To: " ++ recipient s;
                        "From: " ++ sender s;
                        "Subject: " ++ email_subject s ++ nl;
                        message ] in
  try_finally
    (try_except
       (in_world (smtp_sendmail srv (mkMail (sender s) (recipient s) body)) ;;
        ret true)
       (ret false))
    (in_world (smtp_step srv Quit)).

(** [for item in self.items: await item.update()]: the items updated
    before a raise stay updated. *)
Fixpoint update_items (l : list Item.t) (w : World)
  : Outcome unit * (list Item.t * World) :=
  match l with
  | [] => (Ret tt, ([], w))
  | it :: rest =>
      match Item.update (it, w) with
      | (Ret _, (it', w')) =>
          let '(r, (rest', w'')) := update_items rest w' in
          (r, (it' :: rest', w''))
      | (Raise e, (it', w')) => (Raise e, (it' :: rest, w'))
      end
  end.

Definition for_items : Py (t * World) unit :=
  fun '(s, w) =>
    let '(r, (l', w')) := update_items (items s) w in
    (r, (with_items l' s, w')).

(** [sum(item.stockChanged for item in self.items)] *)
Fixpoint sum_changed (l : list Item.t) (acc : Z) : Z :=
  match l with
  | [] => acc
  | it :: rest => sum_changed rest (acc + Z.b2z (Item.stockChanged it))
  end.

(** [sum(item.stock for item in self.items)]: adding None to an int is
    a TypeError. *)
Fixpoint sum_stock {S} (l : list Item.t) (acc : Z) : Py S Z :=
  match l with
  | [] => ret acc
  | it :: rest =>
      match Item.stock it with
      | Some b => sum_stock rest (acc + Z.b2z b)
      | None => raise TypeError
      end
  end.

(** [Store.update] *)
Definition update : Py (t * World) unit :=
  for_items ;;
  s <- self ;;
  if truthy (debug s) then
    let n := Z.of_nat (length (items s)) in
    set_self (with_newInStock n) ;;
    set_self (with_totalInStock n)
  else
    set_self (with_newInStock (sum_changed (items s) 0)) ;;
    total <- sum_stock (items s) 0 ;;
    set_self (with_totalInStock total).

(** One turn of the [while True] loop of [Store.check]. *)
Definition check_turn (seconds : Seconds) : Py (t * World) unit :=
  in_world (print "Checking stock...") ;;
  update ;;
  s <- self ;;
  (if negb (Z.eqb (newInStock s) 0) then
     in_world (print "New items available") ;;
     sent <- send_email ;;
     if sent then in_world (print "Recipient notified of stock changes")
     else ret tt
   else
     in_world (print "Stock unchanged")) ;;
  in_world (sleep seconds).

Fixpoint check_loop (turns : nat) (seconds : Seconds) : Py (t * World) unit :=
  match turns with
  | O => ret tt
  | S n => check_turn seconds ;; check_loop n seconds
  end.

(** [Store.check], observed for [turns] turns of its endless loop.
    [seconds = minutes * 60] is computed once, after the assertion; the
    values on which [times60] gives nothing have failed the assertion
    already. *)
Definition check (turns : nat) (minutes : PyVal) : Py (t * World) unit :=
  py_assert (isinstance_int minutes || isinstance_float minutes)
            "Minutes must be an integer or float" ;;
  match times60 minutes with
  | Some seconds => check_loop turns seconds
  | None => raise (AssertionError "Minutes must be an integer or float")
  end.

(** [Store.__str__] *)
Definition str (s : t) : string := join nl (map Item.str (items s)).

End Store.

(** ** Programs over a coordinator *)

(** The calls a client can make on a coordinator once it is built. *)
Inductive Call : Type :=
| CallAdd (urls : list PyVal)
| CallRemove (urls : list PyVal)
| CallUpdate
| CallCheck (turns : nat) (minutes : PyVal)
| CallSendEmail
| CallEmailMessage
| CallSetPort (val : PyVal)
| CallSetSender (val : PyVal).

Definition perform (c : Call) : Py (Store.t * World) unit :=
  match c with
  | CallAdd urls => Store.add urls
  | CallRemove urls => Store.remove urls
  | CallUpdate => Store.update
  | CallCheck turns minutes => Store.check turns minutes
  | CallSendEmail => _ <- Store.send_email ;; ret tt
  | CallEmailMessage => _ <- Store.email_message ;; ret tt
  | CallSetPort val => Store.set_port val
  | CallSetSender val => Store.set_sender val
  end.

(** The states a coordinator can be in: what the constructor returns,
    and what any call leaves behind, whether it returns or raises. *)
Inductive reachable : Store.t * World -> Prop :=
| reach_init (server0 port0 sender0 password0 recipient0 debug0 : PyVal)
             (w w' : World) (s : Store.t) :
    Store.init server0 port0 sender0 password0 recipient0 debug0 w = (Ret s, w') ->
    reachable (s, w')
| reach_call (c : Call) (st : Store.t * World) :
    reachable st -> reachable (snd (perform c st)).

(** A method keeps a property of the coordinator, in both outcomes. *)
Definition preserves {A} (P : Store.t -> Prop) (m : Py (Store.t * World) A) : Prop :=
  forall (s : Store.t) (w : World), P s -> P (fst (snd (m (s, w)))).

(** ** What the specification says, in its own words *)

Module Spec.

(** The subject template of the specification: a text with fields in
    braces, each field replaced by the value bound to its name. [field]
    holds the name read so far while inside a pair of braces. *)
Fixpoint lookup (env : list (string * string)) (name : string) : string :=
  match env with
  | [] => ""
  | (k, v) :: rest => if String.eqb k name then v else lookup rest name
  end.

Fixpoint fill (env : list (string * string)) (template : string)
         (field : option string) : string :=
  match template with
  | EmptyString => EmptyString
  | String c rest =>
      match field with
      | None =>
          if Ascii.eqb c "{" then fill env rest (Some EmptyString)
          else String c (fill env rest None)
      | Some name =>
          if Ascii.eqb c "}" then lookup env name ++ fill env rest None
          else fill env rest (Some (name ++ String c EmptyString))
      end
  end.

Definition subject (new total : Z) : string :=
  fill [("new", str_of_int new); ("total", str_of_int total)]
       "({new} new, {total} total) items in stock" None.

(** Number of items whose changed flag is set, and whose stock is true. *)
Definition changed_count (l : list Item.t) : Z :=
  Z.of_nat (length (filter Item.stockChanged l)).

Definition in_stock (it : Item.t) : bool :=
  match Item.stock it with
  | Some true => true
  | _ => false
  end.

Definition in_stock_count (l : list Item.t) : Z :=
  Z.of_nat (length (filter in_stock l)).

(** No two tracked items share a URL. *)
Definition unique_urls (s : Store.t) : Prop :=
  NoDup (map Item.url (Store.items s)).

(** Number of tracked items with a given URL. *)
Definition count_url (u : string) (s : Store.t) : nat :=
  length (filter (fun it => String.eqb u (Item.url it)) (Store.items s)).

(** Every tracked item has been observed at least once. *)
Definition known (it : Item.t) : Prop := Item.stock it <> None.

Definition all_known (s : Store.t) : Prop := Forall known (Store.items s).

End Spec.

(** ** Sample worlds and stores *)

Module Sample.

(** A page that shows the marker on requests 0 and 2 and not on 1. *)
Definition flicker : nat -> string -> Fetched :=
  fun n _ =>
    match n with
    | 1 => Body "<p>Sold out</p>"
    | _ => Body "<p>In stock</p>"
    end.

Definition all_fine : nat -> SmtpStage -> bool := fun _ _ => true.



Definition world (pages : nat -> string -> Fetched)
           (mail : nat -> SmtpStage -> bool) (keys : list string) : World :=
  mkWorld pages 0 mail 0 [] keys [] 0 (fun _ => None) [].

Definition calm : World := world flicker all_fine [].

Definition store : Store.t :=
  Store.mk [] 0 0 (VBool false) (VStr "smtp.gmail.com") (VInt 587)
           "me@example.org" "me@example.org" (VStr "secret").

Definition shop : string := "http://shop.example/a".

(** A coordinator that tracks one item, last seen in stock. *)
Definition stocked : Store.t :=
  Store.with_items [Item.mk shop (Some true) false] store.

End Sample.

(** ** Vocabulary for the behaviour of the methods *)

Module Obs.

(** The text starts, or ends, with white space. *)
Definition first_is_space (s : string) : bool :=
  match s with
  | EmptyString => false
  | String c _ => isspace c
  end.

Fixpoint last_is_space (s : string) : bool :=
  match s with
  | EmptyString => false
  | String c EmptyString => isspace c
  | String _ t => last_is_space t
  end.

(** The marker occurs somewhere in the text. *)
Definition occurs (pat text : string) : Prop :=
  exists pre post : string, text = pre ++ pat ++ post.

(** All the arguments of a call are strings. *)
Definition all_str (urls : list PyVal) : bool := forallb isinstance_str urls.

(** An item as [add] inserts it: observed once, not changed. *)
Definition baseline (it : Item.t) : Prop :=
  Item.stockChanged it = false /\ Item.stock it <> None.

(** The second world is the first one after some requests and nothing
    else. *)
Definition only_requests (w w' : World) : Prop :=
  w' = with_requests (requests w') w.

(** The SMTP session that starts in [w] gets as far as handing over the
    message. *)
Definition delivers (w : World) : bool :=
  let k := sessions w in
  smtp w k Connect && smtp w k Ehlo && smtp w k StartTls && smtp w k Login
  && smtp w k SendMail.

Definition b2n (b : bool) : nat := if b then 1 else 0.

End Obs.

(** * Properties *)

(** ** Strings and numerals *)

Lemma str_is_empty_true (s : string) : str_is_empty s = true <-> s = "".
Proof. destruct s; simpl; split; congruence. Qed.

Lemma str_is_empty_false (s : string) : str_is_empty s = false <-> s <> "".
Proof. destruct s; simpl; split; congruence. Qed.

(** [str_of_int] writes the decimal numeral of its argument: reading
    it back gives the number. *)
Lemma str_of_int_read_back (n : Z) :
  option_map Z.of_int (NilZero.int_of_string (str_of_int n)) = Some n.
Proof.
  unfold str_of_int.
  rewrite NilZero.isi.
  - simpl. now rewrite DecimalZ.of_to.
  - destruct n; simpl; try discriminate.
    intros [= H]. now apply DecimalPos.Unsigned.to_uint_nonnil in H.
  - destruct n; simpl; try discriminate.
    intros [= H]. now apply DecimalPos.Unsigned.to_uint_nonnil in H.
Qed.

(** ** Item.update *)

Section ItemUpdate.

Variables (it : Item.t) (w : World).

Let w1 : World := with_requests (S (requests w)) w.

(** The three ways a refresh can go, by what the request yields. *)
Lemma Item_update_fetch_fails :
  web w (requests w) (Item.url it) = FetchFails ->
  Item.update (it, w) = (Raise ClientError, (it, w1)).
Proof.
  intros H. unfold Item.update, Item.pull, bind, self, in_world, http_get.
  now rewrite H.
Qed.

Lemma Item_update_empty :
  web w (requests w) (Item.url it) = Body "" ->
  Item.update (it, w) =
  (Raise (ValueError "Data missing from request"), (it, w1)).
Proof.
  intros H. unfold Item.update, Item.pull, bind, self, in_world, http_get.
  now rewrite H.
Qed.

Lemma Item_update_body (text : string) :
  web w (requests w) (Item.url it) = Body text ->
  text <> "" ->
  Item.update (it, w) =
  (Ret tt,
   (Item.mk (Item.url it)
            (Some (re_search Item.stockString text))
            (Item.ne_stock (re_search Item.stockString text) (Item.stock it)
             && Item.is_not_None (Item.stock it)),
    w1)).
Proof.
  intros H Hne. unfold Item.update, Item.pull, bind, self, in_world, http_get.
  rewrite H. destruct text as [|c text]; [congruence|]. reflexivity.
Qed.

End ItemUpdate.

(** A successful refresh saw a non-empty body. *)
Lemma Item_update_ret_inv (it it' : Item.t) (w w' : World) (u : unit) :
  Item.update (it, w) = (Ret u, (it', w')) ->
  exists text,
    web w (requests w) (Item.url it) = Body text /\ text <> "" /\
    it' = Item.mk (Item.url it)
                  (Some (re_search Item.stockString text))
                  (Item.ne_stock (re_search Item.stockString text) (Item.stock it)
                   && Item.is_not_None (Item.stock it)) /\
    w' = with_requests (S (requests w)) w.
Proof.
  intros H.
  destruct (web w (requests w) (Item.url it)) as [text|] eqn:Hweb.
  - destruct (str_is_empty text) eqn:He.
    + apply str_is_empty_true in He. subst text.
      rewrite (Item_update_empty it w Hweb) in H. discriminate.
    + apply str_is_empty_false in He.
      rewrite (Item_update_body it w text Hweb He) in H.
      injection H as _ <- <-. exists text. auto.
  - rewrite (Item_update_fetch_fails it w Hweb) in H. discriminate.
Qed.

(** A refresh that raises leaves the item as it was. *)
Lemma Item_update_raise_inv (it it' : Item.t) (w w' : World) (e : PyExn) :
  Item.update (it, w) = (Raise e, (it', w')) -> it' = it.
Proof.
  intros H.
  destruct (web w (requests w) (Item.url it)) as [text|] eqn:Hweb.
  - destruct (str_is_empty text) eqn:He.
    + apply str_is_empty_true in He. subst text.
      rewrite (Item_update_empty it w Hweb) in H. congruence.
    + apply str_is_empty_false in He.
      rewrite (Item_update_body it w text Hweb He) in H. discriminate.
  - rewrite (Item_update_fetch_fails it w Hweb) in H. congruence.
Qed.

Lemma ne_stock_known_iff (present : bool) (old : option bool) :
  Item.ne_stock present old && Item.is_not_None old = true <->
  exists prior, old = Some prior /\ present <> prior.
Proof.
  destruct old as [prior|]; simpl.
  - rewrite andb_true_r. split.
    + intros H. exists prior. split; [reflexivity|].
      destruct present, prior; simpl in H; congruence.
    + intros (p & [= <-] & Hne). destruct present, prior; simpl; congruence.
  - split; [discriminate|]. intros (p & Hp & _). discriminate.
Qed.

(** C1. After a refresh that succeeds, the changed flag is set exactly
    when the marker presence just computed differs from the prior stock
    value and that prior value was known; the new stock is the marker
    presence; and a refresh from the unknown state, such as the first
    one of a new item, leaves the flag false whatever the page says. *)
Theorem Item_update_changed_iff (it it' : Item.t) (w w' : World) :
  Item.update (it, w) = (Ret tt, (it', w')) ->
  exists text,
    web w (requests w) (Item.url it) = Body text /\
    let present := re_search Item.stockString text in
    Item.stock it' = Some present /\
    (Item.stockChanged it' = true <->
     exists prior, Item.stock it = Some prior /\ present <> prior) /\
    (Item.stock it = None -> Item.stockChanged it' = false).
Proof.
  intros H. apply Item_update_ret_inv in H.
  destruct H as (text & Hweb & _ & -> & _).
  exists text. split; [exact Hweb|]. cbn zeta. simpl.
  split; [reflexivity|]. split.
  - apply ne_stock_known_iff.
  - intros ->. reflexivity.
Qed.

Lemma Item_update_changed_iff_witness :
  Item.update (Item.init Sample.shop, Sample.calm) =
  (Ret tt, (Item.mk Sample.shop (Some true) false,
            with_requests 1 Sample.calm)) /\
  (exists text,
     web Sample.calm 0 Sample.shop = Body text /\
     Some true = Some (re_search Item.stockString text) /\
     (false = true <->
      exists prior, None = Some prior /\ re_search Item.stockString text <> prior) /\
     (@None bool = None -> false = false)) /\
  Item.update (Item.mk Sample.shop (Some true) false, with_requests 1 Sample.calm) =
  (Ret tt, (Item.mk Sample.shop (Some false) true,
            with_requests 2 Sample.calm)) /\
  exists text,
    web Sample.calm 1 Sample.shop = Body text /\
    Some false = Some (re_search Item.stockString text) /\
    (true = true <->
     exists prior, Some true = Some prior /\ re_search Item.stockString text <> prior) /\
    (Some true = None -> true = false).
Proof.
  split; [reflexivity|]. split; [|split; [reflexivity|]].
  - exact (Item_update_changed_iff
             (Item.init Sample.shop) (Item.mk Sample.shop (Some true) false)
             Sample.calm (with_requests 1 Sample.calm) eq_refl).
  - exact (Item_update_changed_iff
             (Item.mk Sample.shop (Some true) false)
             (Item.mk Sample.shop (Some false) true)
             (with_requests 1 Sample.calm) (with_requests 2 Sample.calm) eq_refl).
Defined.

(** C7. When the fetch succeeds, a refresh raises the data-missing
    error exactly when the body is empty; with a non-empty body it
    returns and the item holds the new stock value. *)
Theorem Item_update_data_missing_iff (it : Item.t) (w : World) (text : string) :
  web w (requests w) (Item.url it) = Body text ->
  (fst (Item.update (it, w)) = Raise (ValueError "Data missing from request")
   <-> text = "") /\
  ((exists e, fst (Item.update (it, w)) = Raise e) <-> text = "") /\
  (text <> "" ->
   fst (Item.update (it, w)) = Ret tt /\
   Item.stock (fst (snd (Item.update (it, w)))) =
   Some (re_search Item.stockString text)).
Proof.
  intros Hweb.
  destruct (str_is_empty text) eqn:He.
  - apply str_is_empty_true in He. subst text.
    rewrite (Item_update_empty it w Hweb). simpl.
    repeat split; try congruence. intros _. eexists. reflexivity.
  - apply str_is_empty_false in He.
    rewrite (Item_update_body it w text Hweb He). simpl.
    repeat split; try congruence; try discriminate.
    intros [e Hr]. discriminate.
Qed.

Lemma Item_update_data_missing_iff_witness :
  web (Sample.world (fun _ _ => Body "") Sample.all_fine []) 0 Sample.shop
  = Body "" /\
  (fst (Item.update (Item.init Sample.shop,
                     Sample.world (fun _ _ => Body "") Sample.all_fine []))
   = Raise (ValueError "Data missing from request") <-> "" = "").
Proof.
  split; [reflexivity|].
  apply (Item_update_data_missing_iff
           (Item.init Sample.shop)
           (Sample.world (fun _ _ => Body "") Sample.all_fine []) "").
  reflexivity.
Defined.

(** C9. A refresh that raises the data-missing error because the body
    is empty leaves the item, and so its stock and changed fields, as
    they were: the raise comes before any assignment. *)
Theorem Item_update_data_missing_keeps_item (it : Item.t) (w : World) :
  web w (requests w) (Item.url it) = Body "" ->
  fst (Item.update (it, w)) = Raise (ValueError "Data missing from request") /\
  Item.stock (fst (snd (Item.update (it, w)))) = Item.stock it /\
  Item.stockChanged (fst (snd (Item.update (it, w)))) = Item.stockChanged it /\
  fst (snd (Item.update (it, w))) = it.
Proof.
  intros Hweb. rewrite (Item_update_empty it w Hweb). simpl. auto.
Qed.

Lemma Item_update_data_missing_keeps_item_witness :
  let it := Item.mk Sample.shop (Some true) true in
  let w := Sample.world (fun _ _ => Body "") Sample.all_fine [] in
  web w (requests w) (Item.url it) = Body "" /\
  fst (Item.update (it, w)) = Raise (ValueError "Data missing from request") /\
  Item.stock (fst (snd (Item.update (it, w)))) = Some true /\
  Item.stockChanged (fst (snd (Item.update (it, w)))) = true /\
  fst (snd (Item.update (it, w))) = it.
Proof.
  intros it w. split; [reflexivity|].
  apply (Item_update_data_missing_keeps_item it w). reflexivity.
Defined.

(** ** The subject line *)

(** C6. The subject is the template of the specification,
    "({new} new, {total} total) items in stock", with the two counts the
    coordinator holds written in decimal in place of the fields; with 2
    new and 5 in total it reads "(2 new, 5 total) items in stock". *)
Theorem email_subject_is_template :
  (forall s : Store.t,
     Store.email_subject s =
     Spec.subject (Store.newInStock s) (Store.totalInStock s)) /\
  (forall (s : Store.t) (new total : Z),
     Store.email_subject
       (Store.with_newInStock new (Store.with_totalInStock total s)) =
     "(" ++ str_of_int new ++ " new, " ++ str_of_int total
         ++ " total) items in stock") /\
  (forall s : Store.t,
     Store.email_subject
       (Store.with_newInStock 2 (Store.with_totalInStock 5 s)) =
     "(2 new, 5 total) items in stock").
Proof.
  split; [|split].
  - intros s. unfold Store.email_subject, Spec.subject. cbn.
    reflexivity.
  - intros s new total. reflexivity.
  - intros s. reflexivity.
Qed.

(** ** The constructor *)

Ltac run_py :=
  unfold bind, ret, raise, self, set_self, in_world, py_assert, modify in *;
  simpl in *.

(** Split on the innermost test a hypothesis is stuck on. *)
Ltac split_inner H :=
  match type of H with
  | context [match ?x with _ => _ end] =>
      lazymatch x with
      | context [match _ with _ => _ end] => fail
      | _ => destruct x eqn:?; simpl in H
      end
  end.

(** Whatever recipient is passed, as long as it is not None, the
    constructor stores the sender in its place. *)
Lemma Store_init_recipient_is_sender
      (server0 port0 sender0 password0 recipient0 debug0 : PyVal)
      (w w' : World) (s : Store.t) :
  is_None recipient0 = false ->
  Store.init server0 port0 sender0 password0 recipient0 debug0 w = (Ret s, w') ->
  Store.recipient s = Store.sender s.
Proof.
  intros Hrec H.
  unfold Store.init, Store.init_body, Store.set_port, Store.set_sender,
    getpass, input in H.
  rewrite Hrec in H. run_py.
  repeat split_inner H; try discriminate; injection H as <- _; reflexivity.
Qed.

(** C3. A coordinator built with sender me@example.org and recipient
    you@example.org: the constructor returns, and the recipient it
    stores is the sender, not the address that was supplied. *)
Theorem Store_init_drops_recipient :
  exists (s : Store.t) (w' : World),
    Store.init VNone Store.default_port (VStr "me@example.org") (VStr "secret")
               (VStr "you@example.org") (VBool false) Sample.calm
    = (Ret s, w') /\
    Store.sender s = "me@example.org" /\
    Store.recipient s = "me@example.org" /\
    Store.recipient s <> "you@example.org".
Proof.
  eexists. eexists. split; [reflexivity|]. simpl.
  repeat split. discriminate.
Qed.

(** ** Configuration errors *)

Lemma Store_add_non_string (val : PyVal) (urls : list PyVal)
      (s : Store.t) (w : World) :
  isinstance_str val = false ->
  Store.add (val :: urls) (s, w) =
  (Raise (AssertionError "URL must be a string"), (s, w)).
Proof.
  intros H. simpl. unfold bind, py_assert. rewrite H. reflexivity.
Qed.

(** [add] at a string: nothing for a tracked URL; otherwise the first
    refresh runs, and the item is inserted only if it returns. *)
Lemma Store_add_cons_str (url : string) (rest : list PyVal)
      (s : Store.t) (w : World) :
  Store.add (VStr url :: rest) (s, w) =
  if Store.tracked url s then Store.add rest (s, w)
  else
    match Item.update (Item.init url, w) with
    | (Ret _, (new, w')) =>
        Store.add rest (Store.with_items (Store.items s ++ [new]) s, w')
    | (Raise e, (_, w')) => (Raise e, (s, w'))
    end.
Proof.
  simpl. unfold Store.on_new. run_py.
  destruct (Store.tracked url s); simpl; [reflexivity|].
  destruct (Item.update (Item.init url, w)) as [[u|e] [new w']]; reflexivity.
Qed.

(** A call of [add] with a non-string among its arguments never returns:
    it raises at that argument, or earlier if a first refresh fails. *)
Lemma Store_add_non_string_anywhere (val : PyVal) (pre urls : list PyVal) :
  isinstance_str val = false ->
  forall (s : Store.t) (w : World),
    fst (Store.add (pre ++ val :: urls) (s, w)) <> Ret tt.
Proof.
  intros Hval. induction pre as [|u pre IH]; intros s w.
  - simpl app. rewrite Store_add_non_string by assumption. discriminate.
  - simpl app. destruct u as [| | | |url]; try (run_py; discriminate).
    rewrite Store_add_cons_str.
    destruct (Store.tracked url s); [apply IH|].
    destruct (Item.update (Item.init url, w)) as [[u|e] [it' w']]; simpl.
    + apply IH.
    + discriminate.
Qed.

(** X19. These errors of configuration raise an assertion error with
    its message and change nothing: a port that is not an int, in the
    setter and in the constructor; a sender that is None, or any other
    value that is not a str, in the setter; a URL that is not a str
    handed to [add]; minutes that are neither int nor float, when the
    coroutine [check] is run, before its first poll. *)
Theorem config_errors_assert
        (val : PyVal) (urls : list PyVal) (turns : nat)
        (s : Store.t) (w : World) :
  (isinstance_int val = false ->
   Store.set_port val (s, w) = (Raise (AssertionError "Must be int"), (s, w)) /\
   forall server0 sender0 password0 recipient0 debug0,
     Store.init server0 val sender0 password0 recipient0 debug0 w =
     (Raise (AssertionError "Must be int"), w)) /\
  (val = VNone ->
   Store.set_sender val (s, w) =
   (Raise (AssertionError "Sender address cannot be empty"), (s, w))) /\
  (val <> VNone -> isinstance_str val = false ->
   Store.set_sender val (s, w) = (Raise (AssertionError "Must be str"), (s, w))) /\
  (isinstance_str val = false ->
   Store.add (val :: urls) (s, w) =
   (Raise (AssertionError "URL must be a string"), (s, w)) /\
   forall pre, fst (Store.add (pre ++ val :: urls) (s, w)) <> Ret tt) /\
  (isinstance_int val || isinstance_float val = false ->
   Store.check turns val (s, w) =
   (Raise (AssertionError "Minutes must be an integer or float"), (s, w))).
Proof.
  repeat split.
  - unfold Store.set_port, bind, py_assert. rewrite H. reflexivity.
  - intros. unfold Store.init, Store.init_body, Store.set_port.
    run_py. rewrite H. reflexivity.
  - intros ->. reflexivity.
  - destruct val; try reflexivity; try congruence. discriminate.
  - now apply Store_add_non_string.
  - intros pre. now apply Store_add_non_string_anywhere.
  - intros H. unfold Store.check, bind, py_assert. rewrite H. reflexivity.
Qed.

Lemma config_errors_assert_witness :
  isinstance_int (VStr "587") = false /\
  Store.set_port (VStr "587") (Sample.store, Sample.calm) =
  (Raise (AssertionError "Must be int"), (Sample.store, Sample.calm)) /\
  isinstance_int (VStr "587") || isinstance_float (VStr "587") = false /\
  Store.check 3 (VStr "587") (Sample.store, Sample.calm) =
  (Raise (AssertionError "Minutes must be an integer or float"),
   (Sample.store, Sample.calm)).
Proof.
  pose proof (config_errors_assert (VStr "587") [] 3 Sample.store Sample.calm)
    as (Hport & _ & _ & _ & Hcheck).
  split; [reflexivity|]. split; [apply Hport; reflexivity|].
  split; [reflexivity|]. apply Hcheck. reflexivity.
Defined.

(** C8. Setting the sender to the empty string raises nothing, although
    the assertion of the setter reads "Sender address cannot be empty":
    the setter stores the empty string and returns, and so does the
    constructor when the sender is left out and the prompt is answered
    with an empty line. *)
Lemma sender_setter_accepts_empty_string :
  Store.set_sender (VStr "") (Sample.store, Sample.calm) =
  (Ret tt, (Store.with_sender "" Sample.store, Sample.calm)) /\
  (~ exists msg,
       fst (Store.set_sender (VStr "") (Sample.store, Sample.calm)) =
       Raise (AssertionError msg)) /\
  exists s w',
    Store.init VNone Store.default_port (VStr "") (VStr "secret") (VStr "")
               (VBool false) (Sample.world Sample.flicker Sample.all_fine [""])
    = (Ret s, w') /\ Store.sender s = "".
Proof.
  split; [reflexivity|]. split.
  - intros [msg H]. discriminate.
  - eexists. eexists. split; reflexivity.
Qed.

(** ** Sending the notification *)




(** ** The poll cycle *)

Lemma update_items_inv (l : list Item.t) :
  forall (w : World) (r : Outcome unit) (l' : list Item.t) (w' : World),
    Store.update_items l w = (r, (l', w')) ->
    map Item.url l' = map Item.url l /\
    (Forall Spec.known l -> Forall Spec.known l') /\
    (r = Ret tt -> Forall Spec.known l').
Proof.
  induction l as [|it rest IH]; intros w r l' w' H; simpl in H.
  - injection H as <- <- <-. auto.
  - destruct (Item.update (it, w)) as [[u|e] [it' w1]] eqn:Hit.
    + apply Item_update_ret_inv in Hit.
      destruct Hit as (text & _ & _ & -> & _).
      destruct (Store.update_items rest w1) as [r2 [rest' w2]] eqn:Hrest.
      injection H as <- <- <-.
      destruct (IH _ _ _ _ Hrest) as (Hurl & Hkeep & Hret).
      simpl. rewrite Hurl. split; [reflexivity|]. split.
      * intros Hall. inversion Hall; subst.
        constructor; [discriminate|auto].
      * intros Hr. constructor; [discriminate|auto].
    + apply Item_update_raise_inv in Hit. subst it'.
      injection H as <- <- <-. repeat split; auto. discriminate.
Qed.

Lemma sum_changed_count (l : list Item.t) :
  forall acc : Z, Store.sum_changed l acc = (acc + Spec.changed_count l)%Z.
Proof.
  unfold Spec.changed_count.
  induction l as [|it rest IH]; intros acc; simpl.
  - lia.
  - rewrite IH. destruct (Item.stockChanged it); simpl length; simpl Z.b2z; lia.
Qed.

Lemma sum_stock_count {S} (l : list Item.t) :
  Forall Spec.known l ->
  forall (acc : Z) (st : S),
    Store.sum_stock l acc st = (Ret (acc + Spec.in_stock_count l)%Z, st).
Proof.
  unfold Spec.in_stock_count.
  induction 1 as [|it rest Hit Hrest IH]; intros acc st; simpl.
  - unfold ret. f_equal. f_equal. lia.
  - unfold Spec.known in Hit. unfold Spec.in_stock at 1.
    destruct (Item.stock it) as [[|]|]; try congruence;
      rewrite IH; f_equal; f_equal; simpl length; simpl Z.b2z; lia.
Qed.

(** [Store.update] in terms of the loop over the items. *)
Lemma Store_update_eq (s : Store.t) (w : World) :
  Store.update (s, w) =
  match Store.update_items (Store.items s) w with
  | (Ret _, (l', w')) =>
      if truthy (Store.debug s) then
        (Ret tt,
         (Store.with_totalInStock (Z.of_nat (length l'))
            (Store.with_newInStock (Z.of_nat (length l'))
               (Store.with_items l' s)), w'))
      else
        (Ret tt,
         (Store.with_totalInStock (Spec.in_stock_count l')
            (Store.with_newInStock (Spec.changed_count l')
               (Store.with_items l' s)), w'))
  | (Raise e, (l', w')) => (Raise e, (Store.with_items l' s, w'))
  end.
Proof.
  unfold Store.update, Store.for_items. run_py.
  destruct (Store.update_items (Store.items s) w) as [[u|e] [l' w']] eqn:Hl;
    simpl; [|reflexivity].
  destruct (truthy (Store.debug s)); [reflexivity|].
  destruct (update_items_inv _ _ _ _ _ Hl) as (_ & _ & Hknown).
  destruct u. specialize (Hknown eq_refl).
  rewrite (sum_stock_count l' Hknown). rewrite sum_changed_count. reflexivity.
Qed.

(** The poll cycle returns whenever every page answers with some text. *)
Lemma update_items_returns (l : list Item.t) :
  forall w : World,
    (forall n u, exists text, web w n u = Body text /\ text <> "") ->
    fst (Store.update_items l w) = Ret tt.
Proof.
  induction l as [|it rest IH]; intros w Hweb; simpl; [reflexivity|].
  destruct (Hweb (requests w) (Item.url it)) as (text & Hb & Hne).
  rewrite (Item_update_body it w text Hb Hne).
  specialize (IH (with_requests (S (requests w)) w) Hweb).
  destruct (Store.update_items rest _) as [r [rest' w'']]. exact IH.
Qed.

Lemma Store_update_returns (s : Store.t) (w : World) :
  (forall n u, exists text, web w n u = Body text /\ text <> "") ->
  fst (Store.update (s, w)) = Ret tt.
Proof.
  intros Hweb. rewrite Store_update_eq.
  pose proof (update_items_returns (Store.items s) w Hweb) as H.
  destruct (Store.update_items (Store.items s) w) as [[u|e] [l' w']];
    simpl in H; [|discriminate].
  destruct (truthy (Store.debug s)); reflexivity.
Qed.



(** ** Adding and removing items *)

(** What [add] keeps: any property of the coordinator that survives the
    insertion of a freshly refreshed item with an untracked URL. *)
Lemma Store_add_preserves (P : Store.t -> Prop) :
  (forall s url text,
     Store.tracked url s = false -> P s ->
     P (Store.with_items
          (Store.items s ++ [Item.mk url (Some (re_search Item.stockString text)) false])
          s)) ->
  forall urls, preserves P (Store.add urls).
Proof.
  intros Hins urls. unfold preserves.
  induction urls as [|u rest IH]; intros s w HP; [exact HP|].
  destruct u as [| | | |url];
    try (rewrite Store_add_non_string by reflexivity; exact HP).
  rewrite Store_add_cons_str.
  destruct (Store.tracked url s) eqn:Ht; [now apply IH|].
  destruct (Item.update (Item.init url, w)) as [[u|e] [new w']] eqn:Hnew;
    [|exact HP].
  apply Item_update_ret_inv in Hnew.
  destruct Hnew as (text & _ & _ & -> & _). simpl.
  apply IH. now apply Hins.
Qed.

Lemma tracked_iff (u : string) (s : Store.t) :
  Store.tracked u s = true <-> In u (map Item.url (Store.items s)).
Proof.
  unfold Store.tracked. rewrite existsb_exists. split.
  - intros (x & Hin & Heq). apply String.eqb_eq in Heq. now subst.
  - intros Hin. exists u. split; [exact Hin|apply String.eqb_refl].
Qed.

Lemma tracked_false_iff (u : string) (s : Store.t) :
  Store.tracked u s = false <-> ~ In u (map Item.url (Store.items s)).
Proof.
  rewrite <- tracked_iff. destruct (Store.tracked u s); split; congruence.
Qed.

Lemma Store_add_unique (urls : list PyVal) :
  preserves Spec.unique_urls (Store.add urls).
Proof.
  apply Store_add_preserves. intros s url text Ht Hs.
  unfold Spec.unique_urls in *. simpl. rewrite map_app. simpl.
  apply tracked_false_iff in Ht.
  apply NoDup_app; [exact Hs|repeat constructor; simpl; tauto|].
  intros x Hx [<-|[]]. contradiction.
Qed.

Lemma Store_add_keeps_tracked (u : string) (urls : list PyVal) :
  preserves (fun s => Store.tracked u s = true) (Store.add urls).
Proof.
  apply Store_add_preserves. intros s url text _ Hs.
  apply tracked_iff. apply tracked_iff in Hs. simpl.
  rewrite map_app. apply in_or_app. now left.
Qed.

(** After a call of [add] that returns, every URL passed is tracked. *)
Lemma Store_add_tracks (u : string) (urls : list PyVal) :
  forall (s : Store.t) (w : World),
    fst (Store.add urls (s, w)) = Ret tt ->
    In (VStr u) urls ->
    Store.tracked u (fst (snd (Store.add urls (s, w)))) = true.
Proof.
  induction urls as [|v rest IH]; intros s w Hret Hin; [destruct Hin|].
  destruct v as [| | | |url];
    try (rewrite Store_add_non_string in Hret by reflexivity; discriminate).
  rewrite Store_add_cons_str in *.
  destruct (Store.tracked url s) eqn:Ht.
  - destruct Hin as [[= ->]|Hin]; [|now apply IH].
    now apply Store_add_keeps_tracked.
  - destruct (Item.update (Item.init url, w)) as [[x|e] [new w']] eqn:Hnew;
      [|discriminate].
    destruct Hin as [[= ->]|Hin]; [|now apply IH].
    apply Store_add_keeps_tracked.
    apply Item_update_ret_inv in Hnew.
    destruct Hnew as (text & _ & _ & -> & _).
    apply tracked_iff. simpl. rewrite map_app. apply in_or_app. right.
    simpl. now left.
Qed.

Lemma count_url_unique (u : string) (s : Store.t) :
  Spec.unique_urls s -> Store.tracked u s = true -> Spec.count_url u s = 1.
Proof.
  unfold Spec.unique_urls, Spec.count_url, Store.tracked.
  induction (Store.items s) as [|it l IH]; simpl; [discriminate|].
  intros Hnd Ht. inversion Hnd as [|x xs Hnotin Hnd']; subst.
  destruct (String.eqb u (Item.url it)) eqn:Heq; simpl.
  - f_equal. apply String.eqb_eq in Heq. subst u.
    clear IH Ht Hnd. induction l as [|it2 l IHl]; simpl; [reflexivity|].
    inversion Hnd' as [|y ys Hn2 Hnd2]; subst.
    destruct (String.eqb (Item.url it) (Item.url it2)) eqn:Heq2.
    + apply String.eqb_eq in Heq2. exfalso. apply Hnotin. simpl. now left.
    + apply IHl; [|exact Hnd2]. intros Hin. apply Hnotin. simpl. now right.
  - now apply IH.
Qed.

(** ** What every call keeps *)

Section Preserves.

Variable P : Store.t -> Prop.

Lemma preserves_ret {A} (a : A) : preserves P (ret a).
Proof. intros s w H. exact H. Qed.

Lemma preserves_raise {A} (e : PyExn) : preserves P (@raise _ A e).
Proof. intros s w H. exact H. Qed.

Lemma preserves_self : preserves P self.
Proof. intros s w H. exact H. Qed.

Lemma preserves_in_world {A} (m : Py World A) : preserves P (in_world m).
Proof.
  intros s w H. unfold in_world. destruct (m w) as [r w']. exact H.
Qed.

Lemma preserves_assert (c : bool) (msg : string) :
  preserves P (py_assert c msg).
Proof. intros s w H. unfold py_assert. destruct c; exact H. Qed.

Lemma preserves_bind {A B} (m : Py (Store.t * World) A)
      (k : A -> Py (Store.t * World) B) :
  preserves P m -> (forall a, preserves P (k a)) -> preserves P (bind m k).
Proof.
  intros Hm Hk s w H. unfold bind.
  specialize (Hm s w H).
  destruct (m (s, w)) as [[a|e] [s1 w1]]; simpl in Hm.
  - now apply Hk.
  - exact Hm.
Qed.

Lemma preserves_try_except {A} (m handler : Py (Store.t * World) A) :
  preserves P m -> preserves P handler -> preserves P (try_except m handler).
Proof.
  intros Hm Hh s w H. unfold try_except.
  specialize (Hm s w H).
  destruct (m (s, w)) as [[a|e] [s1 w1]]; simpl in Hm.
  - exact Hm.
  - now apply Hh.
Qed.

Lemma preserves_try_finally {A} (m : Py (Store.t * World) A)
      (cleanup : Py (Store.t * World) unit) :
  preserves P m -> preserves P cleanup -> preserves P (try_finally m cleanup).
Proof.
  intros Hm Hc s w H. unfold try_finally.
  specialize (Hm s w H).
  destruct (m (s, w)) as [r [s1 w1]]; simpl in Hm.
  specialize (Hc s1 w1 Hm).
  destruct (cleanup (s1, w1)) as [[u|e] [s2 w2]]; exact Hc.
Qed.

Lemma preserves_set_self (f : Store.t -> Store.t) :
  (forall s, P s -> P (f s)) -> preserves P (set_self f).
Proof. intros Hf s w H. simpl. now apply Hf. Qed.

End Preserves.

Ltac preserves_step :=
  first [ apply preserves_ret | apply preserves_raise | apply preserves_self
        | apply preserves_in_world | apply preserves_assert
        | apply preserves_try_finally | apply preserves_try_except
        | apply preserves_bind; [|intros ?] ].

(** Sending mail reads the coordinator and never writes it. *)
Lemma email_message_preserves (P : Store.t -> Prop) :
  preserves P Store.email_message.
Proof. unfold Store.email_message. repeat preserves_step. Qed.

Lemma send_email_preserves (P : Store.t -> Prop) :
  preserves P Store.send_email.
Proof.
  unfold Store.send_email.
  repeat first [ apply email_message_preserves | preserves_step ].
Qed.

Lemma assert_urls_preserves (P : Store.t -> Prop) (urls : list PyVal) :
  preserves P (Store.assert_urls urls).
Proof.
  induction urls as [|u rest IH]; simpl; repeat preserves_step. exact IH.
Qed.

Lemma remove_preserves_known (urls : list PyVal) :
  preserves Spec.all_known (Store.remove urls).
Proof.
  unfold Store.remove. apply preserves_bind.
  - apply assert_urls_preserves.
  - intros _. apply preserves_set_self. intros s H.
    unfold Spec.all_known in *. simpl.
    rewrite Forall_forall in *. intros it Hin.
    apply filter_In in Hin. apply H. tauto.
Qed.

Lemma add_preserves_known (urls : list PyVal) :
  preserves Spec.all_known (Store.add urls).
Proof.
  apply Store_add_preserves. intros s url text _ H.
  unfold Spec.all_known in *. simpl.
  apply Forall_app. split; [exact H|].
  constructor; [discriminate|constructor].
Qed.

Lemma update_preserves_known : preserves Spec.all_known Store.update.
Proof.
  intros s w H. rewrite Store_update_eq.
  destruct (Store.update_items (Store.items s) w) as [r [l' w']] eqn:Hl.
  destruct (update_items_inv _ _ _ _ _ Hl) as (_ & Hkeep & _).
  specialize (Hkeep H).
  destruct r as [u|e]; [destruct (truthy (Store.debug s))|]; exact Hkeep.
Qed.

Lemma map_url_filter_NoDup (f : Item.t -> bool) (l : list Item.t) :
  NoDup (map Item.url l) -> NoDup (map Item.url (filter f l)).
Proof.
  induction l as [|it l IH]; simpl; intros H; [constructor|].
  inversion H as [|x xs Hnotin Hnd]; subst.
  destruct (f it); simpl; [|now apply IH].
  constructor; [|now apply IH].
  intros Hin. apply Hnotin.
  apply in_map_iff in Hin. destruct Hin as (it' & Heq & Hin').
  apply filter_In in Hin'. apply in_map_iff. exists it'. tauto.
Qed.

Lemma remove_preserves_unique (urls : list PyVal) :
  preserves Spec.unique_urls (Store.remove urls).
Proof.
  unfold Store.remove. apply preserves_bind.
  - apply assert_urls_preserves.
  - intros _. apply preserves_set_self. intros s H.
    unfold Spec.unique_urls in *. simpl. now apply map_url_filter_NoDup.
Qed.

Lemma update_preserves_unique : preserves Spec.unique_urls Store.update.
Proof.
  intros s w H. rewrite Store_update_eq.
  destruct (Store.update_items (Store.items s) w) as [r [l' w']] eqn:Hl.
  destruct (update_items_inv _ _ _ _ _ Hl) as (Hurl & _ & _).
  unfold Spec.unique_urls in *.
  destruct r as [u|e]; [destruct (truthy (Store.debug s))|];
    simpl; rewrite Hurl; exact H.
Qed.

Section EveryCall.

(** A property of the set of items alone, kept by the three methods
    that write the set. *)
Variable P : Store.t -> Prop.
Hypothesis P_items : forall s s', Store.items s = Store.items s' -> P s -> P s'.
Hypothesis P_add : forall urls, preserves P (Store.add urls).
Hypothesis P_remove : forall urls, preserves P (Store.remove urls).
Hypothesis P_update : preserves P Store.update.

Lemma check_preserves (turns : nat) (minutes : PyVal) :
  preserves P (Store.check turns minutes).
Proof.
  unfold Store.check. apply preserves_bind; [apply preserves_assert|].
  intros _. destruct (times60 minutes) as [seconds|]; [|apply preserves_raise].
  induction turns as [|n IH]; simpl; [apply preserves_ret|].
  apply preserves_bind; [|intros _; exact IH].
  unfold Store.check_turn.
  apply preserves_bind; [apply preserves_in_world|intros _].
  apply preserves_bind; [exact P_update|intros _].
  apply preserves_bind; [apply preserves_self|intros s].
  apply preserves_bind; [|intros _; apply preserves_in_world].
  destruct (negb (Store.newInStock s =? 0)%Z); [|apply preserves_in_world].
  apply preserves_bind; [apply preserves_in_world|intros _].
  apply preserves_bind; [apply send_email_preserves|intros sent].
  destruct sent; [apply preserves_in_world|apply preserves_ret].
Qed.

Lemma perform_preserves (c : Call) : preserves P (perform c).
Proof.
  destruct c; simpl.
  - apply P_add.
  - apply P_remove.
  - apply P_update.
  - apply check_preserves.
  - apply preserves_bind; [apply send_email_preserves|intros; apply preserves_ret].
  - apply preserves_bind; [apply email_message_preserves|intros; apply preserves_ret].
  - unfold Store.set_port.
    apply preserves_bind; [apply preserves_assert|intros _].
    apply preserves_set_self. intros s. now apply P_items.
  - unfold Store.set_sender.
    apply preserves_bind; [apply preserves_assert|intros _].
    destruct val as [| | | |addr]; try apply preserves_raise.
    apply preserves_set_self. intros s0. now apply P_items.
Qed.

End EveryCall.

(** The constructor returns a coordinator that tracks nothing. *)
Lemma Store_init_no_items
      (server0 port0 sender0 password0 recipient0 debug0 : PyVal)
      (w w' : World) (s : Store.t) :
  Store.init server0 port0 sender0 password0 recipient0 debug0 w = (Ret s, w') ->
  Store.items s = [].
Proof.
  intros H.
  unfold Store.init, Store.init_body, Store.set_port, Store.set_sender,
    getpass, input in H.
  run_py.
  repeat split_inner H; try discriminate; injection H as <- _; reflexivity.
Qed.

Lemma perform_preserves_known (c : Call) :
  preserves Spec.all_known (perform c).
Proof.
  apply perform_preserves.
  - unfold Spec.all_known. now intros s s' <-.
  - apply add_preserves_known.
  - apply remove_preserves_known.
  - apply update_preserves_known.
Qed.

Lemma perform_preserves_unique (c : Call) :
  preserves Spec.unique_urls (perform c).
Proof.
  apply perform_preserves.
  - unfold Spec.unique_urls. now intros s s' <-.
  - apply Store_add_unique.
  - apply remove_preserves_unique.
  - apply update_preserves_unique.
Qed.

(** No coordinator ever tracks two items with one URL. *)
Lemma reachable_unique_urls (st : Store.t * World) :
  reachable st -> Spec.unique_urls (fst st).
Proof.
  intros H. induction H as [? ? ? ? ? ? w w' s Hinit|c [s w] Hreach IH].
  - apply Store_init_no_items in Hinit. unfold Spec.unique_urls. simpl.
    rewrite Hinit. constructor.
  - simpl in IH. apply perform_preserves_unique. exact IH.
Qed.

(** C5. [add] never creates a second item for a URL. No coordinator,
    in any state it can reach, tracks two items with one URL; if no two
    tracked items share a URL before a call of [add], none do after it,
    whether it returns or raises; a URL already tracked is skipped,
    leaving the coordinator and the world untouched; and after a call
    that returns, each URL passed, however often, is tracked by exactly
    one item. *)
Theorem Store_add_unique_urls (urls : list PyVal) (s : Store.t) (w : World) :
  (forall st, reachable st -> Spec.unique_urls (fst st)) /\
  (Spec.unique_urls s ->
   Spec.unique_urls (fst (snd (Store.add urls (s, w))))) /\
  (forall u, Store.tracked u s = true ->
             Store.add [VStr u] (s, w) = (Ret tt, (s, w))) /\
  (Spec.unique_urls s ->
   forall u, fst (Store.add urls (s, w)) = Ret tt -> In (VStr u) urls ->
             Spec.count_url u (fst (snd (Store.add urls (s, w)))) = 1).
Proof.
  split; [|split; [|split]].
  - exact reachable_unique_urls.
  - intros Hs. now apply Store_add_unique.
  - intros u Ht. rewrite Store_add_cons_str, Ht. reflexivity.
  - intros Hs u Hret Hin. apply count_url_unique.
    + now apply Store_add_unique.
    + now apply Store_add_tracks.
Qed.

Lemma Store_add_unique_urls_witness :
  let st := Store.add [VStr Sample.shop; VStr Sample.shop]
                      (Sample.store, Sample.calm) in
  Spec.unique_urls Sample.store /\
  fst st = Ret tt /\
  length (Store.items (fst (snd st))) = 1 /\
  Spec.unique_urls (fst (snd st)) /\
  Spec.count_url Sample.shop (fst (snd st)) = 1.
Proof.
  intros st.
  assert (H0 : Spec.unique_urls Sample.store) by constructor.
  destruct (Store_add_unique_urls [VStr Sample.shop; VStr Sample.shop]
                                  Sample.store Sample.calm)
    as (_ & Hu & _ & Hc).
  split; [exact H0|]. split; [reflexivity|]. split; [reflexivity|].
  split; [exact (Hu H0)|].
  apply (Hc H0); [reflexivity|]. simpl. now left.
Defined.

(** C10. Every item a coordinator tracks has a known stock state,
    in every state the coordinator can reach: after the constructor and
    after any sequence of calls, returning or raising. [add] inserts an
    item only after its first refresh has returned: when the URL is not
    tracked yet and that refresh raises, [add] raises the same
    exception and the coordinator is as before. *)
Theorem tracked_items_known :
  (forall st : Store.t * World, reachable st -> Spec.all_known (fst st)) /\
  (forall (url : string) (rest : list PyVal) (s : Store.t) (w : World)
          (e : PyExn),
     Store.tracked url s = false ->
     fst (Item.update (Item.init url, w)) = Raise e ->
     fst (Store.add (VStr url :: rest) (s, w)) = Raise e /\
     fst (snd (Store.add (VStr url :: rest) (s, w))) = s).
Proof.
  split.
  - intros st H. induction H as [? ? ? ? ? ? w w' s Hinit|c [s w] Hreach IH].
    + apply Store_init_no_items in Hinit. unfold Spec.all_known. simpl.
      rewrite Hinit. constructor.
    + simpl in IH. apply perform_preserves_known. exact IH.
  - intros url rest s w e Ht He. rewrite Store_add_cons_str, Ht.
    destruct (Item.update (Item.init url, w)) as [[u|e'] [new w']];
      simpl in He; [discriminate|].
    injection He as ->. auto.
Qed.

Lemma tracked_items_known_witness :
  let st0 := (Sample.store, Sample.calm) in
  let st := snd (perform CallUpdate (snd (perform (CallAdd [VStr Sample.shop]) st0))) in
  reachable st /\
  Store.items (fst st) = [Item.mk Sample.shop (Some false) true] /\
  Spec.all_known (fst st).
Proof.
  intros st0 st.
  assert (Hreach : reachable st).
  { apply reach_call. apply reach_call.
    apply (reach_init VNone Store.default_port (VStr "me@example.org")
                      (VStr "secret") (VStr "") (VBool false) Sample.calm).
    reflexivity. }
  split; [exact Hreach|]. split; [reflexivity|].
  exact (proj1 tracked_items_known st Hreach).
Defined.

(** * Further properties of the methods *)

(** ** Store.remove *)

Lemma assert_urls_all_str (urls : list PyVal) (st : Store.t * World) :
  Obs.all_str urls = true -> Store.assert_urls urls st = (Ret tt, st).
Proof.
  unfold Obs.all_str. induction urls as [|u rest IH]; simpl; [reflexivity|].
  intros H. apply andb_prop in H. destruct H as [Hu Hrest].
  unfold bind, py_assert. rewrite Hu. simpl. now apply IH.
Qed.

Lemma assert_urls_not_all_str (urls : list PyVal) (st : Store.t * World) :
  Obs.all_str urls = false ->
  Store.assert_urls urls st =
  (Raise (AssertionError "URL must be a string"), st).
Proof.
  unfold Obs.all_str. induction urls as [|u rest IH]; simpl; [discriminate|].
  intros H. unfold bind, py_assert.
  destruct (isinstance_str u); simpl in *; [now apply IH|reflexivity].
Qed.

Lemma url_in_iff (u : string) (urls : list PyVal) :
  Store.url_in u urls = true <-> In (VStr u) urls.
Proof.
  unfold Store.url_in. rewrite existsb_exists. split.
  - intros (v & Hin & Hv). destruct v as [| | | |s]; try discriminate.
    apply String.eqb_eq in Hv. now subst.
  - intros Hin. exists (VStr u). split; [exact Hin|apply String.eqb_refl].
Qed.

(** X1. [remove] with string arguments returns, touches nothing in the
    world, and keeps exactly the items whose URL is not among the
    arguments; none of the URLs passed is tracked afterwards. *)
Theorem Store_remove_drops (urls : list PyVal) (s : Store.t) (w : World) :
  Obs.all_str urls = true ->
  fst (Store.remove urls (s, w)) = Ret tt /\
  snd (snd (Store.remove urls (s, w))) = w /\
  (forall it,
     In it (Store.items (fst (snd (Store.remove urls (s, w))))) <->
     In it (Store.items s) /\ ~ In (VStr (Item.url it)) urls) /\
  (forall u, In (VStr u) urls ->
             Store.tracked u (fst (snd (Store.remove urls (s, w)))) = false).
Proof.
  intros Hall. unfold Store.remove, bind.
  rewrite (assert_urls_all_str urls (s, w) Hall). simpl.
  assert (Hmem : forall it,
    In it (filter (fun it => negb (Store.url_in (Item.url it) urls))
                  (Store.items s)) <->
    In it (Store.items s) /\ ~ In (VStr (Item.url it)) urls).
  { intros it. rewrite filter_In, negb_true_iff, <- url_in_iff.
    destruct (Store.url_in (Item.url it) urls); intuition congruence. }
  split; [reflexivity|]. split; [reflexivity|]. split; [exact Hmem|].
  intros u Hin. apply tracked_false_iff. simpl. intros Hu.
  apply in_map_iff in Hu. destruct Hu as (it & <- & Hit).
  apply Hmem in Hit. tauto.
Qed.

Lemma Store_remove_drops_witness :
  let s := Sample.stocked in
  Obs.all_str [VStr Sample.shop] = true /\
  fst (Store.remove [VStr Sample.shop] (s, Sample.calm)) = Ret tt /\
  Store.tracked Sample.shop
    (fst (snd (Store.remove [VStr Sample.shop] (s, Sample.calm)))) = false.
Proof.
  intros s. split; [reflexivity|].
  destruct (Store_remove_drops [VStr Sample.shop] s Sample.calm eq_refl)
    as (Hret & _ & _ & Hgone).
  split; [exact Hret|]. apply Hgone. simpl. now left.
Defined.

(** X2. [remove] checks all its arguments before it removes anything:
    with a non-string anywhere among them it raises the assertion error
    and the coordinator and the world are as before, even for the
    strings that come first. *)
Theorem Store_remove_all_or_nothing (urls : list PyVal) (s : Store.t) (w : World) :
  Obs.all_str urls = false ->
  Store.remove urls (s, w) =
  (Raise (AssertionError "URL must be a string"), (s, w)).
Proof.
  intros H. unfold Store.remove, bind.
  now rewrite (assert_urls_not_all_str urls (s, w) H).
Qed.

Lemma Store_remove_all_or_nothing_witness :
  Obs.all_str [VStr Sample.shop; VInt 7] = false /\
  Store.remove [VStr Sample.shop; VInt 7] (Sample.stocked, Sample.calm) =
  (Raise (AssertionError "URL must be a string"), (Sample.stocked, Sample.calm)).
Proof.
  split; [reflexivity|].
  apply (Store_remove_all_or_nothing [VStr Sample.shop; VInt 7]). reflexivity.
Defined.

(** ** Store.add *)

Lemma with_requests_twice (n m : nat) (w : World) :
  with_requests n (with_requests m w) = with_requests n w.
Proof. reflexivity. Qed.

(** What a call of [add] does to the list that stands for the set, in
    both outcomes: items are only added, each as a baseline observation;
    when the call returns, it has cost one request per item added. *)
Lemma Store_add_shape (urls : list PyVal) :
  forall (s : Store.t) (w : World),
  exists news : list Item.t,
    fst (snd (Store.add urls (s, w))) =
      Store.with_items (Store.items s ++ news) s /\
    Forall Obs.baseline news /\
    (fst (Store.add urls (s, w)) = Ret tt ->
     snd (snd (Store.add urls (s, w))) =
       with_requests (requests w + length news) w).
Proof.
  induction urls as [|u rest IH]; intros s w.
  - exists []. simpl. rewrite app_nil_r, Nat.add_0_r.
    destruct s, w; repeat split; constructor.
  - destruct u as [| | | |url];
      try (rewrite Store_add_non_string by reflexivity; exists []; simpl;
           rewrite app_nil_r; destruct s; repeat split;
           [constructor|discriminate]).
    rewrite Store_add_cons_str.
    destruct (Store.tracked url s); [apply IH|].
    destruct (Item.update (Item.init url, w)) as [[x|e] [new w1]] eqn:Hnew.
    + apply Item_update_ret_inv in Hnew.
      destruct Hnew as (text & _ & _ & -> & ->).
      destruct (IH (Store.with_items (Store.items s ++ [Item.mk url (Some (re_search Item.stockString text)) false]) s)
                   (with_requests (S (requests w)) w))
        as (news & Hs & Hbase & Hw).
      exists (Item.mk url (Some (re_search Item.stockString text)) false :: news).
      simpl in *. split; [|split].
      * rewrite Hs. simpl. rewrite <- app_assoc. reflexivity.
      * constructor; [|exact Hbase]. split; [reflexivity|discriminate].
      * intros Hret. rewrite (Hw Hret). simpl.
        unfold with_requests. simpl. f_equal. lia.
    + exists []. simpl. rewrite app_nil_r. destruct s. repeat split.
      * constructor.
      * discriminate.
Qed.

(** X3. [add] only adds: after a call, returning or raising, the
    tracked items are the ones tracked before, unchanged, together with
    the new ones, in whatever order; every new item is a baseline
    observation (stock known, changed flag false); and the counts and
    the configuration are untouched. A call that returns has made
    exactly one request per new item and has done nothing else to the
    world. *)
Theorem Store_add_adds_baselines (urls : list PyVal) (s : Store.t) (w : World) :
  exists news : list Item.t,
    Permutation (Store.items (fst (snd (Store.add urls (s, w)))))
                (Store.items s ++ news) /\
    Forall Obs.baseline news /\
    Store.with_items (Store.items s) (fst (snd (Store.add urls (s, w)))) = s /\
    (fst (Store.add urls (s, w)) = Ret tt ->
     requests (snd (snd (Store.add urls (s, w)))) = requests w + length news /\
     Obs.only_requests w (snd (snd (Store.add urls (s, w))))).
Proof.
  destruct (Store_add_shape urls s w) as (news & Hs & Hb & Hw).
  exists news. rewrite Hs. simpl.
  split; [apply Permutation_refl|]. split; [exact Hb|].
  split; [now destruct s|].
  intros Hret. specialize (Hw Hret). unfold Obs.only_requests.
  rewrite Hw. simpl. split; reflexivity.
Qed.

Lemma Store_add_adds_baselines_witness :
  let st := Store.add [VStr Sample.shop] (Sample.store, Sample.calm) in
  fst st = Ret tt /\
  exists news : list Item.t,
    Permutation (Store.items (fst (snd st))) (Store.items Sample.store ++ news) /\
    Forall Obs.baseline news /\
    requests (snd (snd st)) = requests Sample.calm + length news /\
    Obs.only_requests Sample.calm (snd (snd st)).
Proof.
  intros st. split; [reflexivity|].
  destruct (Store_add_adds_baselines [VStr Sample.shop] Sample.store Sample.calm)
    as (news & Hs & Hb & _ & Hw).
  exists news. split; [exact Hs|]. split; [exact Hb|]. apply Hw. reflexivity.
Defined.

Lemma Store_add_all_tracked (urls : list PyVal) (s : Store.t) (w : World) :
  (forall v, In v urls -> exists u, v = VStr u /\ Store.tracked u s = true) ->
  Store.add urls (s, w) = (Ret tt, (s, w)).
Proof.
  induction urls as [|v rest IH]; intros H; [reflexivity|].
  destruct (H v (or_introl eq_refl)) as (u & -> & Ht).
  rewrite Store_add_cons_str, Ht. apply IH.
  intros v Hv. apply H. now right.
Qed.

Lemma Store_add_ret_all_str (urls : list PyVal) (s : Store.t) (w : World) :
  fst (Store.add urls (s, w)) = Ret tt ->
  forall v, In v urls -> exists u, v = VStr u.
Proof.
  intros Hret v Hin. destruct v as [| | | |u]; [| | | |now exists u];
    apply in_split in Hin; destruct Hin as (pre & post & ->);
    exfalso; revert Hret; now apply Store_add_non_string_anywhere.
Qed.

(** X4. [add] is idempotent: once a call has returned, the same call
    made again, in whatever world, returns at once and changes neither
    the coordinator nor the world; no page is fetched a second time. *)
Theorem Store_add_twice (urls : list PyVal) (s : Store.t) (w w2 : World) :
  fst (Store.add urls (s, w)) = Ret tt ->
  Store.add urls (fst (snd (Store.add urls (s, w))), w2) =
  (Ret tt, (fst (snd (Store.add urls (s, w))), w2)).
Proof.
  intros Hret. apply Store_add_all_tracked. intros v Hin.
  destruct (Store_add_ret_all_str urls s w Hret v Hin) as (u & ->).
  exists u. split; [reflexivity|]. now apply Store_add_tracks.
Qed.

Lemma Store_add_twice_witness :
  let st := Store.add [VStr Sample.shop] (Sample.store, Sample.calm) in
  fst st = Ret tt /\
  Store.add [VStr Sample.shop] (fst (snd st), snd (snd st)) =
  (Ret tt, (fst (snd st), snd (snd st))).
Proof.
  intros st. split; [reflexivity|].
  apply (Store_add_twice [VStr Sample.shop] Sample.store Sample.calm).
  reflexivity.
Defined.

Lemma filter_keep_all {A} (f : A -> bool) (l : list A) :
  (forall x, In x l -> f x = true) -> filter f l = l.
Proof.
  induction l as [|a l IH]; simpl; intros H; [reflexivity|].
  rewrite (H a (or_introl eq_refl)). f_equal. apply IH.
  intros x Hx. apply H. now right.
Qed.

(** X5. Adding an untracked URL and removing it again gives back the
    set of items there was: [remove] undoes [add]. *)
Theorem Store_add_then_remove (u : string) (s : Store.t) (w w2 : World) :
  Store.tracked u s = false ->
  fst (Store.add [VStr u] (s, w)) = Ret tt ->
  Store.remove [VStr u] (fst (snd (Store.add [VStr u] (s, w))), w2) =
  (Ret tt, (s, w2)).
Proof.
  intros Ht Hret. rewrite Store_add_cons_str, Ht in *.
  destruct (Item.update (Item.init u, w)) as [[x|e] [new w1]] eqn:Hnew;
    [|discriminate].
  apply Item_update_ret_inv in Hnew. destruct Hnew as (text & _ & _ & -> & _).
  simpl. unfold Store.remove. run_py.
  rewrite filter_app. simpl. rewrite String.eqb_refl. simpl.
  rewrite app_nil_r, filter_keep_all; [destruct s; reflexivity|].
  intros it Hin. simpl. rewrite orb_false_r.
  apply tracked_false_iff in Ht.
  destruct (String.eqb (Item.url it) u) eqn:Heq; [|reflexivity].
  apply String.eqb_eq in Heq. exfalso. apply Ht. subst u. now apply in_map.
Qed.

Lemma Store_add_then_remove_witness :
  Store.tracked Sample.shop Sample.store = false /\
  fst (Store.add [VStr Sample.shop] (Sample.store, Sample.calm)) = Ret tt /\
  Store.remove [VStr Sample.shop]
    (fst (snd (Store.add [VStr Sample.shop] (Sample.store, Sample.calm))),
     Sample.calm) = (Ret tt, (Sample.store, Sample.calm)).
Proof.
  split; [reflexivity|]. split; [reflexivity|].
  apply (Store_add_then_remove Sample.shop Sample.store Sample.calm Sample.calm);
    reflexivity.
Defined.

(** ** Store.update *)

(** The loop over the items: what it costs and what can come out. *)
Lemma update_items_world (l : list Item.t) :
  forall (w : World) (r : Outcome unit) (l' : list Item.t) (w' : World),
    Store.update_items l w = (r, (l', w')) ->
    Obs.only_requests w w' /\
    match r with
    | Ret _ => requests w' = requests w + length l
    | Raise e =>
        (e = ClientError \/ e = ValueError "Data missing from request") /\
        requests w < requests w' <= requests w + length l
    end.
Proof.
  unfold Obs.only_requests.
  induction l as [|it rest IH]; intros w r l' w' H; simpl in H.
  - injection H as <- <- <-. simpl. split; [now destruct w|lia].
  - destruct (web w (requests w) (Item.url it)) as [text|] eqn:Hweb.
    + destruct (str_is_empty text) eqn:He.
      * apply str_is_empty_true in He. subst text.
        rewrite (Item_update_empty it w Hweb) in H.
        injection H as <- <- <-. simpl. split; [reflexivity|].
        split; [now right|lia].
      * apply str_is_empty_false in He.
        rewrite (Item_update_body it w text Hweb He) in H.
        destruct (Store.update_items rest _) as [r2 [rest' w2]] eqn:Hrest.
        injection H as <- <- <-.
        destruct (IH _ _ _ _ Hrest) as (Hw & Hr). simpl in *.
        split; [rewrite Hw; reflexivity|].
        destruct r2 as [x|e]; [lia|].
        destruct Hr as (He' & Hlt). split; [exact He'|lia].
    + rewrite (Item_update_fetch_fails it w Hweb) in H.
      injection H as <- <- <-. simpl. split; [reflexivity|].
      split; [now left|lia].
Qed.

Lemma count_le_length {A} (f : A -> bool) (l : list A) :
  length (filter f l) <= length l.
Proof.
  induction l as [|a l IH]; simpl; [lia|]. destruct (f a); simpl; lia.
Qed.

Lemma Store_update_ret_inv (s s' : Store.t) (w w' : World) :
  Store.update (s, w) = (Ret tt, (s', w')) ->
  requests w' = requests w + length (Store.items s) /\
  Obs.only_requests w w' /\
  map Item.url (Store.items s') = map Item.url (Store.items s) /\
  (0 <= Store.newInStock s' <= Z.of_nat (length (Store.items s')))%Z /\
  (0 <= Store.totalInStock s' <= Z.of_nat (length (Store.items s')))%Z.
Proof.
  rewrite Store_update_eq.
  destruct (Store.update_items (Store.items s) w) as [[u|e] [l' w1]] eqn:Hl;
    [|discriminate].
  destruct (update_items_world _ _ _ _ _ Hl) as (Hw & Hreq).
  destruct (update_items_inv _ _ _ _ _ Hl) as (Hurl & _ & _).
  pose proof (count_le_length Item.stockChanged l') as Hc.
  pose proof (count_le_length Spec.in_stock l') as Ht.
  unfold Spec.changed_count, Spec.in_stock_count.
  destruct (truthy (Store.debug s)); intros [= <- <-]; simpl;
    repeat split; auto; lia.
Qed.

(** X6. A poll cycle that completes has made exactly one request per
    tracked item and nothing else to the world; it tracks the same URLs
    in the same order; and both counts lie between 0 and the number of
    tracked items. *)
Theorem Store_update_completes (s s' : Store.t) (w w' : World) :
  Store.update (s, w) = (Ret tt, (s', w')) ->
  requests w' = requests w + length (Store.items s) /\
  Obs.only_requests w w' /\
  map Item.url (Store.items s') = map Item.url (Store.items s) /\
  (0 <= Store.newInStock s' <= Z.of_nat (length (Store.items s')))%Z /\
  (0 <= Store.totalInStock s' <= Z.of_nat (length (Store.items s')))%Z.
Proof. exact (Store_update_ret_inv s s' w w'). Qed.

Lemma Store_update_completes_witness :
  let st := Store.update (Sample.stocked, with_requests 1 Sample.calm) in
  st = (Ret tt, snd st) /\
  requests (snd (snd st)) = 2 /\
  (0 <= Store.newInStock (fst (snd st)) <= 1)%Z.
Proof.
  intros st. split; [reflexivity|].
  destruct (Store_update_completes Sample.stocked (fst (snd st))
              (with_requests 1 Sample.calm) (snd (snd st)) eq_refl)
    as (Hreq & _ & _ & Hnew & _).
  split; [exact Hreq|exact Hnew].
Defined.

Lemma Store_update_raise_inv (s s' : Store.t) (w w' : World) (e : PyExn) :
  Store.update (s, w) = (Raise e, (s', w')) ->
  (e = ClientError \/ e = ValueError "Data missing from request") /\
  Store.newInStock s' = Store.newInStock s /\
  Store.totalInStock s' = Store.totalInStock s /\
  map Item.url (Store.items s') = map Item.url (Store.items s) /\
  requests w < requests w' <= requests w + length (Store.items s).
Proof.
  rewrite Store_update_eq.
  destruct (Store.update_items (Store.items s) w) as [[u|e1] [l' w1]] eqn:Hl.
  - destruct (truthy (Store.debug s)); discriminate.
  - intros [= <- <- <-].
    destruct (update_items_world _ _ _ _ _ Hl) as (_ & He & Hreq).
    destruct (update_items_inv _ _ _ _ _ Hl) as (Hurl & _ & _).
    simpl. auto.
Qed.

(** X7. A poll cycle that raises does so with the exception of a
    refresh, a failed fetch or an empty body, never with a type error
    from the sums; it leaves both counts as the previous cycle set
    them, tracks the same URLs, and has stopped at the failing item:
    at least one request and at most one per item was made. *)
Theorem Store_update_aborts (s s' : Store.t) (w w' : World) (e : PyExn) :
  Store.update (s, w) = (Raise e, (s', w')) ->
  (e = ClientError \/ e = ValueError "Data missing from request") /\
  Store.newInStock s' = Store.newInStock s /\
  Store.totalInStock s' = Store.totalInStock s /\
  map Item.url (Store.items s') = map Item.url (Store.items s) /\
  requests w < requests w' <= requests w + length (Store.items s).
Proof. exact (Store_update_raise_inv s s' w w' e). Qed.

Lemma Store_update_aborts_witness :
  let w := Sample.world (fun _ _ => FetchFails) Sample.all_fine [] in
  let st := Store.update (Sample.stocked, w) in
  st = (Raise ClientError, snd st) /\
  Store.newInStock (fst (snd st)) = Store.newInStock Sample.stocked /\
  Store.totalInStock (fst (snd st)) = Store.totalInStock Sample.stocked.
Proof.
  intros w st. split; [reflexivity|].
  destruct (Store_update_aborts Sample.stocked (fst (snd st)) w (snd (snd st))
              ClientError eq_refl) as (_ & Hn & Ht & _).
  split; [exact Hn|exact Ht].
Defined.

(** ** Store.send_email *)

Lemma str_app_assoc (a b c : string) : (a ++ b) ++ c = a ++ (b ++ c).
Proof. induction a as [|x a IH]; simpl; [reflexivity|now rewrite IH]. Qed.

Lemma send_email_footprint (s : Store.t) (w : World) :
  fst (snd (Store.send_email (s, w))) = s /\
  requests (snd (snd (Store.send_email (s, w)))) = requests w /\
  stdin (snd (snd (Store.send_email (s, w)))) = stdin w /\
  naps (snd (snd (Store.send_email (s, w)))) = naps w /\
  sessions (snd (snd (Store.send_email (s, w)))) = S (sessions w) /\
  (if Obs.delivers w then
     exists body,
       outbox (snd (snd (Store.send_email (s, w)))) =
       (outbox w ++ [mkMail (Store.sender s) (Store.recipient s) body])%list /\
       Obs.occurs ("Subject: " ++ Store.email_subject s) body
   else outbox (snd (snd (Store.send_email (s, w)))) = outbox w) /\
  (fst (Store.send_email (s, w)) = Ret true -> Obs.delivers w = true).
Proof.
  unfold Obs.delivers, Store.send_email, Store.email_message, smtp_sendmail,
    smtp_connect, smtp_step, try_finally, try_except, print.
  run_py.
  destruct (smtp w (sessions w) Connect); simpl;
    [|repeat split; discriminate].
  destruct (smtp w (sessions w) Ehlo); simpl;
    [|repeat split; discriminate].
  destruct (smtp w (sessions w) StartTls); simpl;
    [|repeat split; discriminate].
  destruct (smtp w (sessions w) Login); simpl;
    [|repeat split; discriminate].
  destruct (smtp w (sessions w) SendMail); simpl;
    destruct (smtp w (sessions w) Quit); simpl;
    repeat split; try discriminate;
    eexists; (split; [reflexivity|]);
    exists ("To: " ++ Store.recipient s ++ nl ++ "From: " ++ Store.sender s ++ nl);
    eexists; simpl; rewrite !str_app_assoc; simpl; rewrite !str_app_assoc;
    reflexivity.
Qed.

(** X8. What [send_email] does, in every outcome: the coordinator is
    unchanged; no page is requested, nothing is read and no nap taken;
    exactly one SMTP session number is used up; the outbox grows by one
    message, from the sender to the recipient and carrying the subject
    line, when the session gets as far as a successful submission, and
    not at all otherwise; and True is returned only after such a
    submission. *)
Theorem Store_send_email_effects (s : Store.t) (w : World) :
  fst (snd (Store.send_email (s, w))) = s /\
  requests (snd (snd (Store.send_email (s, w)))) = requests w /\
  stdin (snd (snd (Store.send_email (s, w)))) = stdin w /\
  naps (snd (snd (Store.send_email (s, w)))) = naps w /\
  sessions (snd (snd (Store.send_email (s, w)))) = S (sessions w) /\
  (if Obs.delivers w then
     exists body,
       outbox (snd (snd (Store.send_email (s, w)))) =
       (outbox w ++ [mkMail (Store.sender s) (Store.recipient s) body])%list /\
       Obs.occurs ("Subject: " ++ Store.email_subject s) body
   else outbox (snd (snd (Store.send_email (s, w)))) = outbox w) /\
  (fst (Store.send_email (s, w)) = Ret true -> Obs.delivers w = true).
Proof. exact (send_email_footprint s w). Qed.

(** ** Store.check *)

Lemma bind_ret_inv {S A B} (m : Py S A) (k : A -> Py S B) (st st' : S) (b : B) :
  bind m k st = (Ret b, st') ->
  exists a st1, m st = (Ret a, st1) /\ k a st1 = (Ret b, st').
Proof.
  unfold bind. destruct (m st) as [[a|e] st1]; [|discriminate].
  intros H. now exists a, st1.
Qed.

Lemma sleep_ret_inv (seconds : Seconds) (w w' : World) :
  sleep seconds w = (Ret tt, w') -> w' = with_naps (S (naps w)) w.
Proof.
  unfold sleep. destruct seconds as [n|bits].
  - destruct (float_limit <=? n)%Z; [discriminate|]. now intros [= <-].
  - destruct (float_nap w bits); [discriminate|]. now intros [= <-].
Qed.

Lemma check_turn_ret_inv (seconds : Seconds) (s s' : Store.t) (w w' : World) :
  Store.check_turn seconds (s, w) = (Ret tt, (s', w')) ->
  requests w' = requests w + length (Store.items s) /\
  naps w' = S (naps w) /\
  map Item.url (Store.items s') = map Item.url (Store.items s) /\
  (Store.newInStock s' = 0%Z ->
   sessions w' = sessions w /\ outbox w' = outbox w) /\
  (Store.newInStock s' <> 0%Z ->
   sessions w' = S (sessions w) /\
   length (outbox w') <= S (length (outbox w))).
Proof.
  unfold Store.check_turn. intros H.
  apply bind_ret_inv in H. destruct H as ([] & [s0 w0] & Hprint & H).
  unfold in_world, print, modify in Hprint. simpl in Hprint.
  injection Hprint as <- <-.
  apply bind_ret_inv in H. destruct H as ([] & [s1 w1] & Hupd & H).
  apply Store_update_ret_inv in Hupd.
  destruct Hupd as (Hreq & Hw1 & Hurl & _). simpl in Hreq.
  unfold Obs.only_requests in Hw1.
  apply bind_ret_inv in H. destruct H as (s2 & [s3 w3] & Hself & H).
  unfold self in Hself. injection Hself as <- <- <-.
  apply bind_ret_inv in H. destruct H as ([] & [s4 w4] & Hmid & Hsleep).
  unfold in_world in Hsleep.
  destruct (sleep seconds w4) as [r5 w5] eqn:Hnap.
  injection Hsleep as -> <- <-.
  apply sleep_ret_inv in Hnap. subst w5.
  destruct (Z.eqb_spec (Store.newInStock s1) 0) as [Hz|Hnz]; simpl in Hmid.
  - unfold in_world, print, modify in Hmid. simpl in Hmid.
    injection Hmid as <- <-. simpl. rewrite Hw1. simpl.
    repeat split; auto; try lia; contradiction.
  - apply bind_ret_inv in Hmid. destruct Hmid as ([] & [s5 w5] & Hp2 & Hmid).
    unfold in_world, print, modify in Hp2. simpl in Hp2.
    injection Hp2 as <- <-.
    apply bind_ret_inv in Hmid. destruct Hmid as (sent & [s6 w6] & Hsend & Hmid).
    pose proof (send_email_footprint s1
                  (with_stdout (stdout w1 ++ ["New items available"]) w1))
      as (Hs & Hr & _ & Hn & Hk & Hout & _).
    rewrite Hsend in Hs, Hr, Hn, Hk, Hout. simpl in Hs, Hr, Hn, Hk, Hout.
    subst s6.
    assert (Hlen : length (outbox w6) <= S (length (outbox w1))).
    { destruct (Obs.delivers _).
      - destruct Hout as (body & -> & _). rewrite length_app. simpl. lia.
      - rewrite Hout. lia. }
    assert (Hend : s4 = s1 /\ requests w4 = requests w6 /\ naps w4 = naps w6
                   /\ sessions w4 = sessions w6 /\ outbox w4 = outbox w6).
    { destruct sent.
      - unfold in_world, print, modify in Hmid. simpl in Hmid.
        injection Hmid as <- <-. simpl. auto.
      - unfold ret in Hmid. injection Hmid as <- <-. auto. }
    destruct Hend as (-> & Hr4 & Hn4 & Hk4 & Ho4). simpl.
    rewrite Hr4, Hn4, Hk4, Ho4, Hr, Hn, Hk.
    rewrite Hw1 in Hlen |- *. simpl in Hlen |- *.
    repeat split; auto; try lia; contradiction.
Qed.

(** X9. A turn of the polling loop that completes has: fetched every
    tracked item once; slept once; kept the tracked URLs; opened no
    SMTP session and sent nothing when the cycle left newInStock at 0;
    and opened exactly one session, sending at most one message, when
    it left it non-zero. *)
Theorem Store_check_turn_summary
        (seconds : Seconds) (s s' : Store.t) (w w' : World) :
  Store.check_turn seconds (s, w) = (Ret tt, (s', w')) ->
  requests w' = requests w + length (Store.items s) /\
  naps w' = S (naps w) /\
  map Item.url (Store.items s') = map Item.url (Store.items s) /\
  (Store.newInStock s' = 0%Z ->
   sessions w' = sessions w /\ outbox w' = outbox w) /\
  (Store.newInStock s' <> 0%Z ->
   sessions w' = S (sessions w) /\
   length (outbox w') <= S (length (outbox w))).
Proof. exact (check_turn_ret_inv seconds s s' w w'). Qed.

Lemma Store_check_turn_summary_witness :
  let st := Store.check_turn (SecInt 900)
                             (Sample.stocked, with_requests 1 Sample.calm) in
  st = (Ret tt, snd st) /\
  Store.newInStock (fst (snd st)) <> 0%Z /\
  requests (snd (snd st)) = 2 /\
  naps (snd (snd st)) = 1 /\
  sessions (snd (snd st)) = 1 /\
  length (outbox (snd (snd st))) <= 1.
Proof.
  intros st.
  assert (Hst : st = (Ret tt, (fst (snd st), snd (snd st))))
    by (vm_compute; reflexivity).
  assert (Hn : Store.newInStock (fst (snd st)) <> 0%Z)
    by (vm_compute; discriminate).
  destruct (Store_check_turn_summary (SecInt 900) Sample.stocked (fst (snd st))
              (with_requests 1 Sample.calm) (snd (snd st)) Hst)
    as (Hreq & Hnap & _ & _ & Hmail).
  split; [vm_compute; reflexivity|]. split; [exact Hn|]. split; [exact Hreq|].
  split; [exact Hnap|]. exact (Hmail Hn).
Defined.

Lemma check_loop_summary (turns : nat) (seconds : Seconds) :
  forall (s s' : Store.t) (w w' : World),
    Store.check_loop turns seconds (s, w) = (Ret tt, (s', w')) ->
    requests w' = requests w + turns * length (Store.items s) /\
    naps w' = naps w + turns /\
    map Item.url (Store.items s') = map Item.url (Store.items s) /\
    sessions w' <= sessions w + turns /\
    length (outbox w') <= length (outbox w) + turns.
Proof.
  induction turns as [|n IH]; intros s s' w w' H; simpl in H.
  - injection H as <- <-. repeat split; lia.
  - apply bind_ret_inv in H. destruct H as ([] & [s1 w1] & Hturn & Hrest).
    apply check_turn_ret_inv in Hturn.
    destruct Hturn as (Hreq & Hnap & Hurl & Hzero & Hmail).
    apply IH in Hrest. destruct Hrest as (Hreq2 & Hnap2 & Hurl2 & Hk2 & Ho2).
    assert (Hlen : length (Store.items s1) = length (Store.items s)).
    { rewrite <- (length_map Item.url (Store.items s1)), Hurl.
      apply length_map. }
    rewrite Hlen in Hreq2.
    assert (Hk : sessions w1 <= S (sessions w) /\
                 length (outbox w1) <= S (length (outbox w))).
    { destruct (Z.eq_dec (Store.newInStock s1) 0) as [Hz|Hnz].
      - destruct (Hzero Hz) as (-> & ->). lia.
      - destruct (Hmail Hnz) as (-> & Hl). lia. }
    repeat split; try lia. congruence.
Qed.

(** X10. When the polling loop has completed a number of turns, it has
    fetched every tracked item once per turn and slept once per turn,
    it tracks the URLs it started with, and it has opened at most one
    SMTP session and sent at most one message per turn. *)
Theorem Store_check_budget (turns : nat) (minutes : PyVal)
        (s s' : Store.t) (w w' : World) :
  Store.check turns minutes (s, w) = (Ret tt, (s', w')) ->
  requests w' = requests w + turns * length (Store.items s) /\
  naps w' = naps w + turns /\
  map Item.url (Store.items s') = map Item.url (Store.items s) /\
  sessions w' <= sessions w + turns /\
  length (outbox w') <= length (outbox w) + turns.
Proof.
  unfold Store.check. intros H.
  apply bind_ret_inv in H. destruct H as ([] & [s0 w0] & Hassert & H).
  unfold py_assert in Hassert.
  destruct (isinstance_int minutes || isinstance_float minutes);
    [|discriminate].
  injection Hassert as <- <-.
  destruct (times60 minutes) as [seconds|]; [|discriminate].
  now apply check_loop_summary in H.
Qed.

Lemma Store_check_budget_witness :
  let w := Sample.world (fun _ _ => Body "<p>In stock</p>") Sample.all_fine [] in
  let st := Store.check 3 (VInt 15) (Sample.stocked, w) in
  st = (Ret tt, snd st) /\
  requests (snd (snd st)) = 3 /\
  naps (snd (snd st)) = 3 /\
  sessions (snd (snd st)) <= 3.
Proof.
  intros w st.
  assert (Hst : st = (Ret tt, (fst (snd st), snd (snd st))))
    by (vm_compute; reflexivity).
  destruct (Store_check_budget 3 (VInt 15) Sample.stocked (fst (snd st))
              w (snd (snd st)) Hst) as (Hreq & Hnap & _ & Hk & _).
  split; [vm_compute; reflexivity|]. split; [exact Hreq|].
  split; [exact Hnap|exact Hk].
Defined.

(** ** Store.__init__ *)

Ltac use_equations :=
  repeat match goal with
         | E : ?x = _ |- context [?x] => rewrite E
         end.

(** X11. The constructor reads one line for each thing it has to ask:
    the sender when none (or an empty one) is passed, the recipient
    when None is passed, the password when none is passed and both the
    server and the sender are set. Apart from these prompts it does
    nothing to the world: no request, no SMTP session, no message. *)
Theorem Store_init_prompts
        (server0 port0 sender0 password0 recipient0 debug0 : PyVal)
        (w w' : World) (s : Store.t) :
  Store.init server0 port0 sender0 password0 recipient0 debug0 w = (Ret s, w') ->
  length (stdin w) =
    length (stdin w')
    + Obs.b2n (negb (truthy sender0))
    + Obs.b2n (is_None recipient0)
    + Obs.b2n (truthy (Store.server s) && negb (str_is_empty (Store.sender s))
               && negb (truthy password0)) /\
  requests w' = requests w /\ sessions w' = sessions w /\
  outbox w' = outbox w /\ naps w' = naps w.
Proof.
  intros H.
  unfold Store.init, Store.init_body, Store.set_port, Store.set_sender,
    getpass, input in H.
  run_py.
  repeat split_inner H; try discriminate; injection H as <- <-; simpl in *;
    use_equations; simpl; repeat split; lia.
Qed.

Lemma Store_init_prompts_witness :
  let w := Sample.world Sample.flicker Sample.all_fine
                        ["  me@example.org "; ""; "secret"] in
  let r := Store.init VNone Store.default_port VNone VNone VNone (VBool false) w in
  r = (Ret (Store.mk [] 0 0 (VBool false) (VStr "smtp.gmail.com") (VInt 587)
                     "me@example.org" "me@example.org" (VStr "secret")), snd r) /\
  length (stdin w) = length (stdin (snd r)) + 1 + 1 + 1.
Proof.
  intros w r. split; [reflexivity|].
  apply (Store_init_prompts VNone Store.default_port VNone VNone VNone
                            (VBool false) w (snd r)
                            (Store.mk [] 0 0 (VBool false) (VStr "smtp.gmail.com")
                                      (VInt 587) "me@example.org" "me@example.org"
                                      (VStr "secret"))).
  reflexivity.
Defined.



(** White space at the two ends of a line is gone after
    [.lstrip().rstrip()]. *)
Lemma lstrip_first (s : string) : Obs.first_is_space (lstrip s) = false.
Proof.
  induction s as [|c s IH]; simpl; [reflexivity|].
  destruct (isspace c) eqn:Hc; [exact IH|]. simpl. exact Hc.
Qed.

Lemma rstrip_first (s : string) :
  Obs.first_is_space s = false -> Obs.first_is_space (rstrip s) = false.
Proof.
  destruct s as [|c s]; simpl; [reflexivity|]. intros Hc. rewrite Hc. simpl.
  exact Hc.
Qed.

Lemma rstrip_last (s : string) : Obs.last_is_space (rstrip s) = false.
Proof.
  induction s as [|c s IH]; simpl; [reflexivity|].
  destruct (isspace c) eqn:Hc; simpl.
  - destruct (rstrip s) as [|d t] eqn:Hr; simpl; [reflexivity|exact IH].
  - destruct (rstrip s) as [|d t] eqn:Hr; simpl; [exact Hc|exact IH].
Qed.

Lemma strip_clean (line : string) :
  Obs.first_is_space (rstrip (lstrip line)) = false /\
  Obs.last_is_space (rstrip (lstrip line)) = false.
Proof.
  split; [apply rstrip_first, lstrip_first|apply rstrip_last].
Qed.

(** X13. A sender typed at the prompt is stored without the white space
    around it: when no sender is passed and the constructor returns,
    the sender it holds neither starts nor ends with white space. *)
Theorem Store_init_prompted_sender_stripped
        (server0 port0 sender0 password0 recipient0 debug0 : PyVal)
        (w w' : World) (s : Store.t) :
  truthy sender0 = false ->
  Store.init server0 port0 sender0 password0 recipient0 debug0 w = (Ret s, w') ->
  (exists line rest, stdin w = line :: rest /\
                     Store.sender s = rstrip (lstrip line)) /\
  Obs.first_is_space (Store.sender s) = false /\
  Obs.last_is_space (Store.sender s) = false.
Proof.
  intros Hs H.
  unfold Store.init, Store.init_body, Store.set_port, Store.set_sender,
    getpass, input in H.
  rewrite Hs in H. run_py.
  repeat split_inner H; try discriminate; injection H as <- <-; simpl in *;
    (split; [eexists; eexists; split; reflexivity|apply strip_clean]).
Qed.

Lemma Store_init_prompted_sender_stripped_witness :
  let w := Sample.world Sample.flicker Sample.all_fine ["  me@example.org "] in
  let r := Store.init VNone Store.default_port VNone (VStr "secret") (VStr "")
                      (VBool false) w in
  truthy VNone = false /\
  r = (Ret (Store.mk [] 0 0 (VBool false) (VStr "smtp.gmail.com") (VInt 587)
                     "me@example.org" "me@example.org" (VStr "secret")), snd r) /\
  Obs.first_is_space "me@example.org" = false /\
  Obs.last_is_space "me@example.org" = false.
Proof.
  intros w r. split; [reflexivity|]. split; [reflexivity|].
  apply (Store_init_prompted_sender_stripped
           VNone Store.default_port VNone (VStr "secret") (VStr "")
           (VBool false) w (snd r)
           (Store.mk [] 0 0 (VBool false) (VStr "smtp.gmail.com") (VInt 587)
                     "me@example.org" "me@example.org" (VStr "secret")));
    reflexivity.
Defined.

(** ** The marker and the report *)

Lemma prefix_iff (p s : string) :
  prefix p s = true <-> exists post, s = p ++ post.
Proof.
  revert s. induction p as [|a p IH]; intros s; simpl.
  - destruct s; split; eauto.
  - destruct s as [|b s]; simpl.
    + split; [discriminate|]. intros (post & H). discriminate.
    + destruct (ascii_dec a b) as [->|Hne].
      * rewrite IH. split; intros (post & H); exists post; congruence.
      * split; [discriminate|]. intros (post & H). congruence.
Qed.

Lemma re_search_nil (pat : string) :
  re_search pat "" = prefix pat "" || false.
Proof. reflexivity. Qed.

Lemma re_search_cons (pat : string) (c : ascii) (t : string) :
  re_search pat (String c t) = prefix pat (String c t) || re_search pat t.
Proof. reflexivity. Qed.

Lemma re_search_iff (pat text : string) :
  re_search pat text = true <-> Obs.occurs pat text.
Proof.
  unfold Obs.occurs. split.
  - induction text as [|c t IH].
    + rewrite re_search_nil, orb_true_iff, prefix_iff.
      intros [(post & H)|H]; [|discriminate]. now exists "", post.
    + rewrite re_search_cons, orb_true_iff, prefix_iff.
      intros [(post & H)|H]; [now exists "", post|].
      destruct (IH H) as (pre & post & ->). now exists (String c pre), post.
  - intros (pre & post & ->).
    induction pre as [|c pre IH].
    + change ("" ++ pat ++ post) with (pat ++ post).
      destruct (pat ++ post) as [|c t] eqn:E.
      * rewrite re_search_nil, orb_true_iff. left. apply prefix_iff.
        exists post. now rewrite E.
      * rewrite re_search_cons, orb_true_iff. left. apply prefix_iff.
        exists post. now rewrite E.
    + change (String c pre ++ pat ++ post) with (String c (pre ++ pat ++ post)).
      rewrite re_search_cons, IH. apply orb_true_r.
Qed.

(** X14. After a refresh that succeeds, the item is in stock exactly
    when the text "In stock", in this spelling, occurs somewhere in the
    body that was fetched, and out of stock exactly when it does not. *)
Theorem Item_update_stock_iff_marker (it it' : Item.t) (w w' : World) :
  Item.update (it, w) = (Ret tt, (it', w')) ->
  exists text,
    web w (requests w) (Item.url it) = Body text /\
    (Item.stock it' = Some true <-> Obs.occurs "In stock" text) /\
    (Item.stock it' = Some false <-> ~ Obs.occurs "In stock" text).
Proof.
  intros H. apply Item_update_ret_inv in H.
  destruct H as (text & Hweb & _ & -> & _). exists text.
  split; [exact Hweb|]. simpl. rewrite <- re_search_iff.
  unfold Item.stockString.
  destruct (re_search "In stock" text); split; split; congruence.
Qed.

Lemma Item_update_stock_iff_marker_witness :
  Item.update (Item.init Sample.shop, Sample.calm) =
  (Ret tt, (Item.mk Sample.shop (Some true) false, with_requests 1 Sample.calm)) /\
  exists text,
    web Sample.calm 0 Sample.shop = Body text /\
    (Some true = Some true <-> Obs.occurs "In stock" text) /\
    (Some true = Some false <-> ~ Obs.occurs "In stock" text).
Proof.
  split; [reflexivity|].
  exact (Item_update_stock_iff_marker
           (Item.init Sample.shop) (Item.mk Sample.shop (Some true) false)
           Sample.calm (with_requests 1 Sample.calm) eq_refl).
Defined.

Lemma app_nl_inj (a b : string) : a ++ nl = b ++ nl -> a = b.
Proof.
  revert b. induction a as [|x a IH]; intros [|y b] H; simpl in H.
  - reflexivity.
  - injection H as _ H. destruct b; discriminate.
  - injection H as _ H. destruct a; discriminate.
  - injection H as -> H. f_equal. now apply IH.
Qed.

(** X15. The one-item report can be read back: two items have the same
    report exactly when they have the same URL and agree on being in
    stock; so an item that was never observed reads as out of stock. *)
Theorem Item_str_read_back (a b : Item.t) :
  Item.str a = Item.str b <->
  Item.url a = Item.url b /\ Spec.in_stock a = Spec.in_stock b.
Proof.
  unfold Item.str, Spec.in_stock. split.
  - destruct (Item.stock a) as [[|]|], (Item.stock b) as [[|]|];
      simpl; intros H; try discriminate;
      repeat (injection H as H); apply app_nl_inj in H; auto.
  - intros [-> H].
    destruct (Item.stock a) as [[|]|], (Item.stock b) as [[|]|];
      simpl in *; congruence.
Qed.

Lemma Item_str_read_back_witness :
  let a := Item.mk Sample.shop None false in
  let b := Item.mk Sample.shop (Some false) true in
  Item.str a = Item.str b /\
  Item.url a = Item.url b /\ Spec.in_stock a = Spec.in_stock b.
Proof.
  intros a b. split; [reflexivity|].
  apply (proj1 (Item_str_read_back a b)). reflexivity.
Defined.

Lemma occurs_refl (a : string) : Obs.occurs a a.
Proof.
  exists "", "". simpl. induction a as [|c a IH]; simpl; congruence.
Qed.

Lemma occurs_trans (a b c : string) :
  Obs.occurs a b -> Obs.occurs b c -> Obs.occurs a c.
Proof.
  intros (p1 & q1 & ->) (p2 & q2 & ->).
  exists (p2 ++ p1), (q1 ++ q2). now rewrite !str_app_assoc.
Qed.

Lemma join_occurs (sep x : string) (l : list string) :
  In x l -> Obs.occurs x (join sep l).
Proof.
  induction l as [|p rest IH]; intros Hin; [destruct Hin|].
  destruct rest as [|q rest].
  - destruct Hin as [->|[]]. apply occurs_refl.
  - change (join sep (p :: q :: rest)) with (p ++ sep ++ join sep (q :: rest)).
    destruct Hin as [->|Hin].
    + now exists "", (sep ++ join sep (q :: rest)).
    + destruct (IH Hin) as (pre & post & ->).
      exists (p ++ sep ++ pre), post. now rewrite !str_app_assoc.
Qed.

Lemma url_occurs_in_str (it : Item.t) : Obs.occurs (Item.url it) (Item.str it).
Proof.
  unfold Item.str.
  exists ("Item is " ++ match Item.stock it with
                        | Some true => "in"
                        | _ => "out of"
                        end ++ " stock" ++ nl), nl.
  now rewrite !str_app_assoc.
Qed.

(** X16. The notification text names what it should: it leaves the
    coordinator unchanged and prints the text it returns; in debug mode
    that text is the report of the whole coordinator, and otherwise it
    contains the report, and so the URL, of every tracked item whose
    changed flag is set, and is empty when no flag is set. *)
Theorem Store_email_message_names_changes (s : Store.t) (w : World) :
  exists message : string,
    Store.email_message (s, w) =
      (Ret message, (s, with_stdout (stdout w ++ [message]) w)) /\
    (truthy (Store.debug s) = true -> message = Store.str s) /\
    (truthy (Store.debug s) = false ->
     (forall it, In it (Store.items s) -> Item.stockChanged it = true ->
                 Obs.occurs (Item.str it) message /\
                 Obs.occurs (Item.url it) message) /\
     (Spec.changed_count (Store.items s) = 0%Z -> message = "")).
Proof.
  unfold Store.email_message, print. run_py.
  eexists. split; [reflexivity|].
  destruct (truthy (Store.debug s)); split; try discriminate.
  - reflexivity.
  - intros _. split.
    + intros it Hin Hch.
      assert (Hocc : Obs.occurs (Item.str it)
                (join nl (map Item.str (filter Item.stockChanged (Store.items s))))).
      { apply join_occurs, in_map, filter_In. auto. }
      split; [exact Hocc|].
      exact (occurs_trans _ _ _ (url_occurs_in_str it) Hocc).
    + unfold Spec.changed_count. intros H.
      destruct (filter Item.stockChanged (Store.items s)); [reflexivity|].
      simpl in H. lia.
Qed.

(** ** What can come out of the loop and of the constructor *)









Lemma Store_send_email_effects_witness :
  fst (Store.send_email (Sample.stocked, Sample.calm)) = Ret true /\
  Obs.delivers Sample.calm = true /\
  sessions (snd (snd (Store.send_email (Sample.stocked, Sample.calm)))) = 1 /\
  fst (snd (Store.send_email (Sample.stocked, Sample.calm))) = Sample.stocked.
Proof.
  destruct (Store_send_email_effects Sample.stocked Sample.calm)
    as (Hs & _ & _ & _ & Hk & _ & Hd).
  assert (Hret : fst (Store.send_email (Sample.stocked, Sample.calm)) = Ret true)
    by (vm_compute; reflexivity).
  split; [exact Hret|]. split; [exact (Hd Hret)|]. split; [exact Hk|exact Hs].
Defined.

Lemma Store_email_message_names_changes_witness :
  let s := Store.with_items [Item.mk Sample.shop (Some false) true] Sample.store in
  truthy (Store.debug s) = false /\
  exists message : string,
    Store.email_message (s, Sample.calm) =
      (Ret message, (s, with_stdout (stdout Sample.calm ++ [message]) Sample.calm)) /\
    Obs.occurs Sample.shop message.
Proof.
  intros s. split; [reflexivity|].
  destruct (Store_email_message_names_changes s Sample.calm)
    as (message & Heq & _ & Hquiet).
  exists message. split; [exact Heq|].
  apply (proj1 (Hquiet eq_refl) (Item.mk Sample.shop (Some false) true)).
  - simpl. now left.
  - reflexivity.
Defined.
